(** * DayPlanner: a shallow embedding of [src/dayplanner.ts]

    The planner keeps a list of activities and a list of assignments of
    activities to half-hour slots.  Activities are JavaScript objects and are
    compared by reference ([!==]); an assignment holds a reference to its
    activity.  The batch path ([assignActivities]) sends a prompt to a language
    model, reads a JSON payload out of the reply, validates every proposal
    against per-title queues and an occupancy map, and applies all proposals or
    none.

    Modelling choices, all read off the source:
    - a JavaScript [number] that a caller passes as a slot or a duration is an
      integer [Z] (of either sign, and of any size); numbers that come out of
      [JSON.parse] are [number]s, which are either an integer or some
      non-integer value;
    - object identity is a natural number [ref] handed out by an allocation
      counter kept beside the two lists;
    - a [Map] is a [gmap]; an array held in a [Map] and mutated in place
      ([shift], [unshift], [push]) is the map updated at that key;
    - a [throw] is a [Throw] completion; the state after the throw is returned
      with it, so that "the store is unchanged" is a statement about values;
    - [console.log] output is modelled for [displaySchedule] only, as the list
      of the strings logged; the progress messages of the other calls are
      left out. *)

From Stdlib Require Import ZArith String Ascii List DecimalString Lia.
From stdpp Require Import gmap strings list fin_maps.

Open Scope Z_scope.

(** ** Characters and strings *)

(** The double quote and the line feed, by their codes. *)
Definition dq : ascii := "034"%char.
Definition nl : ascii := "010"%char.

Definition quoted (s : string) : string :=
  String dq EmptyString +:+ s +:+ String dq EmptyString.

(** [Array.prototype.join]. *)
Fixpoint join (sep : string) (l : list string) : string :=
  match l with
  | [] => EmptyString
  | [x] => x
  | x :: rest => x +:+ sep +:+ join sep rest
  end.

(** [Number.prototype.toString] on an integer (as JavaScript prints it below
    10^21 in absolute value, where it turns to the exponent form). *)
Definition toString (z : Z) : string := NilZero.string_of_int (Z.to_int z).

(** [String.prototype.padStart] with a one-character filler. *)
Definition padStart (width : nat) (fill : ascii) (s : string) : string :=
  string_of_list_ascii (repeat fill (width - String.length s)) +:+ s.

(** White space as [String.prototype.trim] sees it, within 8-bit characters:
    tab, line feed, vertical tab, form feed, carriage return, space and the
    no-break space. *)
Definition is_trim_space (c : ascii) : bool :=
  let n := nat_of_ascii c in
  ((9 <=? n)%nat && (n <=? 13)%nat) || (n =? 32)%nat || (n =? 160)%nat.

Fixpoint trimStart (s : string) : string :=
  match s with
  | String c rest => if is_trim_space c then trimStart rest else s
  | EmptyString => EmptyString
  end.

Definition string_rev (s : string) : string :=
  string_of_list_ascii (rev (list_ascii_of_string s)).

Definition trim (s : string) : string :=
  string_rev (trimStart (string_rev (trimStart s))).

(** ** JSON values *)

(** A number as the validator looks at it: [Number.isInteger] holds of
    [Int z] and fails on [NonInt], which stands for every other number. *)
Inductive number :=
| Int (z : Z)
| NonInt.

#[local] Unset Elimination Schemes.
Inductive JSON :=
| JNull
| JBool (b : bool)
| JNum (n : number)
| JStr (s : string)
| JArr (items : list JSON)
| JObj (fields : list (string * JSON)).
#[local] Set Elimination Schemes.

(** Property read [o[key]] on an object built by [JSON.parse]: the last
    binding of a repeated key wins; [None] is [undefined]. *)
Fixpoint last_binding (key : string) (fields : list (string * JSON)) : option JSON :=
  match fields with
  | [] => None
  | (k, v) :: rest =>
      match last_binding key rest with
      | Some v' => Some v'
      | None => if String.eqb k key then Some v else None
      end
  end.

(** ** A reader for JSON text

    [JSON.parse] is the host's.  The planner below takes it as a parameter,
    and every general theorem holds for any such function; [JSONText.parse]
    is a reader for the JSON grammar (RFC 8259) on 8-bit text, used where a
    concrete reply has to be run.  A number is classified by its exact decimal
    value; rounding to a double is not modelled.  A [\u] escape above code
    255 has no 8-bit counterpart and is refused. *)
Module JSONText.

Definition code (c : ascii) : Z := Z.of_nat (nat_of_ascii c).

Definition is_ws (c : ascii) : bool :=
  let n := code c in (n =? 32) || (n =? 9) || (n =? 10) || (n =? 13).

Fixpoint skip_ws (s : string) : string :=
  match s with
  | String c rest => if is_ws c then skip_ws rest else s
  | EmptyString => EmptyString
  end.

Definition digit (c : ascii) : option Z :=
  let n := code c in
  if (48 <=? n) && (n <=? 57) then Some (n - 48) else None.

Definition hex (c : ascii) : option Z :=
  let n := code c in
  if (48 <=? n) && (n <=? 57) then Some (n - 48)
  else if (65 <=? n) && (n <=? 70) then Some (n - 55)
  else if (97 <=? n) && (n <=? 102) then Some (n - 87)
  else None.

(** A maximal run of digits: its value on top of [acc], its length and
    the rest of the text. *)
Fixpoint digits (acc : Z) (count : nat) (s : string) : Z * nat * string :=
  match s with
  | String c rest =>
      match digit c with
      | Some d => digits (10 * acc + d) (S count) rest
      | None => (acc, count, s)
      end
  | EmptyString => (acc, count, s)
  end.

Definition starts_with_zero (s : string) : bool :=
  match s with
  | String c _ => Ascii.eqb c "0"
  | EmptyString => false
  end.

(** The value [sign * mantissa * 10^scale] as a [number]. *)
Definition classify (negative : bool) (mantissa scale : Z) : number :=
  let sign := if negative then -1 else 1 in
  if 0 <=? scale then Int (sign * mantissa * 10 ^ scale)
  else
    let d := 10 ^ (- scale) in
    if mantissa mod d =? 0 then Int (sign * (mantissa / d)) else NonInt.

Definition fraction (mantissa : Z) (s : string) : option (Z * nat * string) :=
  match s with
  | String c rest =>
      if Ascii.eqb c "." then
        match digits mantissa 0 rest with
        | (_, O, _) => None
        | r => Some r
        end
      else Some (mantissa, O, s)
  | EmptyString => Some (mantissa, O, s)
  end.

Definition exponent (s : string) : option (Z * string) :=
  match s with
  | String c rest =>
      if Ascii.eqb c "e" || Ascii.eqb c "E" then
        let '(negative, rest') :=
          match rest with
          | String sg r =>
              if Ascii.eqb sg "-" then (true, r)
              else if Ascii.eqb sg "+" then (false, r)
              else (false, rest)
          | EmptyString => (false, rest)
          end in
        match digits 0 0 rest' with
        | (_, O, _) => None
        | (e, _, r) => Some (if negative then - e else e, r)
        end
      else Some (0, s)
  | EmptyString => Some (0, s)
  end.

Definition read_number (s : string) : option (number * string) :=
  let '(negative, s1) :=
    match s with
    | String c rest => if Ascii.eqb c "-" then (true, rest) else (false, s)
    | EmptyString => (false, s)
    end in
  match digits 0 0 s1 with
  | (_, O, _) => None
  | (m, n, s2) =>
      if starts_with_zero s1 && (1 <? n)%nat then None
      else
        match fraction m s2 with
        | None => None
        | Some (m', k, s3) =>
            match exponent s3 with
            | None => None
            | Some (e, s4) => Some (classify negative m' (e - Z.of_nat k), s4)
            end
        end
  end.

Definition unescape (c : ascii) : option ascii :=
  if Ascii.eqb c dq then Some dq
  else if Ascii.eqb c "\" then Some "\"%char
  else if Ascii.eqb c "/" then Some "/"%char
  else if Ascii.eqb c "b" then Some "008"%char
  else if Ascii.eqb c "f" then Some "012"%char
  else if Ascii.eqb c "n" then Some "010"%char
  else if Ascii.eqb c "r" then Some "013"%char
  else if Ascii.eqb c "t" then Some "009"%char
  else None.

Definition hex4 (a b c d : ascii) : option ascii :=
  match hex a, hex b, hex c, hex d with
  | Some 0, Some 0, Some x, Some y => Some (ascii_of_nat (Z.to_nat (16 * x + y)))
  | _, _, _, _ => None
  end.

(** The characters of a string literal after its opening quote. *)
Fixpoint string_body (s : string) : option (string * string) :=
  match s with
  | EmptyString => None
  | String c rest =>
      if Ascii.eqb c dq then Some (EmptyString, rest)
      else if Ascii.eqb c "\" then
        match rest with
        | String e rest' =>
            if Ascii.eqb e "u" then
              match rest' with
              | String h1 (String h2 (String h3 (String h4 rest''))) =>
                  match hex4 h1 h2 h3 h4, string_body rest'' with
                  | Some ch, Some (body, r) => Some (String ch body, r)
                  | _, _ => None
                  end
              | _ => None
              end
            else
              match unescape e, string_body rest' with
              | Some ch, Some (body, r) => Some (String ch body, r)
              | _, _ => None
              end
        | EmptyString => None
        end
      else if code c <? 32 then None
      else
        match string_body rest with
        | Some (body, r) => Some (String c body, r)
        | None => None
        end
  end.

Fixpoint strip_prefix (p s : string) : option string :=
  match p, s with
  | EmptyString, _ => Some s
  | String a p', String b s' => if Ascii.eqb a b then strip_prefix p' s' else None
  | String _ _, EmptyString => None
  end.

Definition literal (s : string) : option (JSON * string) :=
  match strip_prefix "true" s, strip_prefix "false" s, strip_prefix "null" s with
  | Some r, _, _ => Some (JBool true, r)
  | _, Some r, _ => Some (JBool false, r)
  | _, _, Some r => Some (JNull, r)
  | _, _, _ =>
      match read_number s with
      | Some (n, r) => Some (JNum n, r)
      | None => None
      end
  end.

(** Recursive descent; [fuel] bounds the number of nested calls. *)
Fixpoint value (fuel : nat) (s : string) {struct fuel} : option (JSON * string) :=
  match fuel with
  | O => None
  | S fuel =>
      match skip_ws s with
      | EmptyString => None
      | String c rest as s' =>
          if Ascii.eqb c "{" then
            match skip_ws rest with
            | String c' rest' as body =>
                if Ascii.eqb c' "}" then Some (JObj [], rest')
                else
                  match members fuel body with
                  | Some (fs, r) => Some (JObj fs, r)
                  | None => None
                  end
            | EmptyString => None
            end
          else if Ascii.eqb c "[" then
            match skip_ws rest with
            | String c' rest' as body =>
                if Ascii.eqb c' "]" then Some (JArr [], rest')
                else
                  match elements fuel body with
                  | Some (vs, r) => Some (JArr vs, r)
                  | None => None
                  end
            | EmptyString => None
            end
          else if Ascii.eqb c dq then
            match string_body rest with
            | Some (str, r) => Some (JStr str, r)
            | None => None
            end
          else literal s'
      end
  end
with elements (fuel : nat) (s : string) {struct fuel} : option (list JSON * string) :=
  match fuel with
  | O => None
  | S fuel =>
      match value fuel s with
      | None => None
      | Some (v, r) =>
          match skip_ws r with
          | String c rest =>
              if Ascii.eqb c "," then
                match elements fuel rest with
                | Some (vs, r') => Some (v :: vs, r')
                | None => None
                end
              else if Ascii.eqb c "]" then Some ([v], rest)
              else None
          | EmptyString => None
          end
      end
  end
with members (fuel : nat) (s : string) {struct fuel} : option (list (string * JSON) * string) :=
  match fuel with
  | O => None
  | S fuel =>
      match skip_ws s with
      | String q rest =>
          if Ascii.eqb q dq then
            match string_body rest with
            | None => None
            | Some (key, r) =>
                match skip_ws r with
                | String colon r1 =>
                    if Ascii.eqb colon ":" then
                      match value fuel r1 with
                      | None => None
                      | Some (v, r2) =>
                          match skip_ws r2 with
                          | String c r3 =>
                              if Ascii.eqb c "," then
                                match members fuel r3 with
                                | Some (fs, r') => Some ((key, v) :: fs, r')
                                | None => None
                                end
                              else if Ascii.eqb c "}" then Some ([(key, v)], r3)
                              else None
                          | EmptyString => None
                          end
                      end
                    else None
                | EmptyString => None
                end
            end
          else None
      | EmptyString => None
      end
  end.

(** One value, white space around it, and nothing else. *)
Definition parse (text : string) : option JSON :=
  match value (2 * String.length text + 2) text with
  | Some (v, rest) =>
      match skip_ws rest with
      | EmptyString => Some v
      | String _ _ => None
      end
  | None => None
  end.

End JSONText.

(** ** The store *)

(** [interface Activity].  [ref] is the identity of the object: two values
    stand for the same object when their [ref]s are equal, whatever a caller
    put in the other fields. *)
Record Activity := {
  ref : nat;
  title : string;
  duration : Z
}.

(** [interface Assignment]. *)
Record Assignment := {
  activity : Activity;
  startTime : Z
}.

(** [class DayPlanner]: its two private arrays, and the allocation counter
    from which [addActivity] takes the identity of the object it creates. *)
Record DayPlanner := {
  activities : list Activity;
  assignments : list Assignment;
  next_ref : nat
}.

(** [new DayPlanner()]. *)
Definition new_DayPlanner : DayPlanner :=
  {| activities := []; assignments := []; next_ref := 0 |}.

(** [assignment.activity === a]. *)
Definition refers_to (a : Activity) (assignment : Assignment) : Prop :=
  ref (activity assignment) = ref a.

#[global] Instance refers_to_dec a assignment : Decision (refers_to a assignment).
Proof. unfold refers_to. apply _. Defined.

(** What a call can throw: [new Error(message)], the [SyntaxError] of
    [JSON.parse] and the [TypeError] of a property read on [null] or
    [undefined]. *)
Inductive exn :=
| Error (message : string)
| SyntaxError
| TypeError.

Inductive completion (A : Type) :=
| Normal (v : A)
| Throw (e : exn).
Arguments Normal {A} v.
Arguments Throw {A} e.

Definition addActivity (this : DayPlanner) (title : string) (duration : Z)
  : Activity * DayPlanner :=
  let activity := {| ref := next_ref this; title := title; duration := duration |} in
  (activity,
   {| activities := activities this ++ [activity];
      assignments := assignments this;
      next_ref := S (next_ref this) |}).

Definition removeActivity (this : DayPlanner) (activity : Activity) : DayPlanner :=
  {| activities := filter (λ a, ref a ≠ ref activity) (activities this);
     assignments := filter (λ assignment, ¬ refers_to activity assignment) (assignments this);
     next_ref := next_ref this |}.

Definition unassignActivity (this : DayPlanner) (activity : Activity) : DayPlanner :=
  {| activities := activities this;
     assignments := filter (λ assignment, ¬ refers_to activity assignment) (assignments this);
     next_ref := next_ref this |}.

Definition assignActivity (this : DayPlanner) (activity : Activity) (startTime : Z)
  : DayPlanner :=
  let this := unassignActivity this activity in
  {| activities := activities this;
     assignments := assignments this ++ [{| activity := activity; startTime := startTime |}];
     next_ref := next_ref this |}.

Definition isAssigned (this : DayPlanner) (activity : Activity) : bool :=
  bool_decide (Exists (refers_to activity) (assignments this)).

(** ** Formatting a slot *)

(** [Math.floor(timeSlot / 2)] is [Z.div]; [%] truncates, like [Z.rem]. *)
Definition formatTimeSlot (timeSlot : Z) : string :=
  let hours := timeSlot / 2 in
  let minutes := Z.rem timeSlot 2 * 30 in
  let period := if 12 <=? hours then "PM" else "AM" in
  let displayHours :=
    if hours =? 0 then 12 else if 12 <? hours then hours - 12 else hours in
  toString displayHours +:+ ":" +:+ padStart 2 "0" (toString minutes) +:+ " " +:+ period.

(** ** The batch path *)

(** [responseText.match(/\{[\s\S]*\}/)]: the leftmost opening brace from
    which a closing brace can be reached, and from there, greedily, up to the
    last closing brace of the text. *)
Fixpoint through_last_closing_brace (s : string) : option string :=
  match s with
  | EmptyString => None
  | String c rest =>
      match through_last_closing_brace rest with
      | Some m => Some (String c m)
      | None => if Ascii.eqb c "}" then Some (String c EmptyString) else None
      end
  end.

Fixpoint match_json (responseText : string) : option string :=
  match responseText with
  | EmptyString => None
  | String c rest =>
      if Ascii.eqb c "{" then
        match through_last_closing_brace rest with
        | Some m => Some (String c m)
        | None => match_json rest
        end
      else match_json rest
  end.

(** [response.assignments], with the two tests made on it.  A property read
    on [null] throws; on anything but an object built from JSON text it gives
    [undefined]. *)
Definition response_assignments (response : JSON) : completion (list JSON) :=
  match response with
  | JNull => Throw TypeError
  | JObj fields =>
      match last_binding "assignments" fields with
      | Some (JArr rawAssignments) => Normal rawAssignments
      | _ => Throw (Error "Invalid response format")
      end
  | _ => Throw (Error "Invalid response format")
  end.

(** [typeof raw === 'object' && raw !== null]. *)
Definition is_object (raw : JSON) : bool :=
  match raw with
  | JArr _ | JObj _ => true
  | _ => false
  end.

(** The properties [title] and [startTime] destructured from an entry: an
    array has neither. *)
Definition property (key : string) (raw : JSON) : option JSON :=
  match raw with
  | JObj fields => last_binding key fields
  | _ => None
  end.

(** The locals of the validation loop. *)
Record validation := {
  activitiesByTitle : gmap string (list Activity);
  occupiedSlots : gmap Z Activity;
  issues : list string;
  validatedAssignments : list Assignment
}.

(** [issues.push(message); continue]. *)
Definition issue (v : validation) (message : string) : validation :=
  {| activitiesByTitle := activitiesByTitle v;
     occupiedSlots := occupiedSlots v;
     issues := issues v ++ [message];
     validatedAssignments := validatedAssignments v |}.

(** The array under [title] after a [shift] or an [unshift]. *)
Definition set_pool (v : validation) (title : string) (pool : list Activity) : validation :=
  {| activitiesByTitle := <[title := pool]> (activitiesByTitle v);
     occupiedSlots := occupiedSlots v;
     issues := issues v;
     validatedAssignments := validatedAssignments v |}.

(** Lines 171-176: the queue of each title, in the order of the list. *)
Definition pool_push (m : gmap string (list Activity)) (activity : Activity)
  : gmap string (list Activity) :=
  <[title activity := default [] (m !! title activity) ++ [activity]]> m.

Definition group_by_title (unassignedActivities : list Activity)
  : gmap string (list Activity) :=
  fold_left pool_push unassignedActivities ∅.

(** [for (offset = 0; offset < duration; offset++) occupiedSlots.set(startTime
    + offset, activity)], with [slot] standing for [startTime + offset] and
    [n] for the offsets left. *)
Fixpoint occupy (occupied : gmap Z Activity) (activity : Activity) (slot : Z) (n : nat)
  : gmap Z Activity :=
  match n with
  | O => occupied
  | S n' => occupy (<[slot := activity]> occupied) activity (slot + 1) n'
  end.

(** Lines 182-186. *)
Definition existing_occupancy (this : DayPlanner) : gmap Z Activity :=
  fold_left
    (λ occupied existing,
       occupy occupied (activity existing) (startTime existing)
         (Z.to_nat (duration (activity existing))))
    (assignments this) ∅.

(** Lines 225-234: the first occupied slot of the range, with its occupant. *)
Fixpoint first_conflict (occupied : gmap Z Activity) (slot : Z) (n : nat)
  : option (Z * Activity) :=
  match n with
  | O => None
  | S n' =>
      match occupied !! slot with
      | Some occupying => Some (slot, occupying)
      | None => first_conflict occupied (slot + 1) n'
      end
  end.

(** The message of line 230. *)
Definition conflict_issue (slot : Z) (occupyingActivity : Activity) (proposed : string)
  : string :=
  "Time slot " +:+ formatTimeSlot slot +:+ " is already taken by "
  +:+ quoted (title occupyingActivity) +:+ " and conflicts with "
  +:+ quoted proposed +:+ ".".

(** One turn of the loop of lines 188-247. *)
Definition validate_one (v : validation) (rawAssignment : JSON) : validation :=
  if negb (is_object rawAssignment) then
    issue v "Encountered an assignment entry that is not an object."
  else
    match property "title" rawAssignment with
    | Some (JStr title) =>
        if (String.length (trim title) =? 0)%nat then
          issue v "Assignment is missing a valid activity title."
        else
          match activitiesByTitle v !! title with
          | None | Some [] =>
              issue v ("No available occurrences of activity " +:+ quoted title
                       +:+ " to assign.")
          | Some (activity :: pool) =>
              let v := set_pool v title pool in
              match property "startTime" rawAssignment with
              | Some (JNum (Int startTime)) =>
                  if (startTime <? 0) || (47 <? startTime) then
                    issue v ("Activity " +:+ quoted title
                             +:+ " has an out-of-range start time ("
                             +:+ toString startTime +:+ ").")
                  else if 48 <? startTime + duration activity then
                    issue v ("Activity " +:+ quoted title
                             +:+ " would extend past the end of the day.")
                  else
                    match first_conflict (occupiedSlots v) startTime
                            (Z.to_nat (duration activity)) with
                    | Some (slot, occupyingActivity) =>
                        set_pool
                          (issue v (conflict_issue slot occupyingActivity title))
                          title (activity :: pool)
                    | None =>
                        {| activitiesByTitle := activitiesByTitle v;
                           occupiedSlots :=
                             occupy (occupiedSlots v) activity startTime
                               (Z.to_nat (duration activity));
                           issues := issues v;
                           validatedAssignments :=
                             validatedAssignments v
                             ++ [{| activity := activity; startTime := startTime |}] |}
                    end
              | _ =>
                  issue v ("Activity " +:+ quoted title
                           +:+ " has a non-integer start time.")
              end
          end
    | _ => issue v "Assignment is missing a valid activity title."
    end.

(** Lines 178-247: the loop run over the payload's entries. *)
Definition validate (this : DayPlanner) (unassignedActivities : list Activity)
    (rawAssignments : list JSON) : validation :=
  fold_left validate_one rawAssignments
    {| activitiesByTitle := group_by_title unassignedActivities;
       occupiedSlots := existing_occupancy this;
       issues := [];
       validatedAssignments := [] |}.

(** The message of line 250. *)
Definition disallowed (issues : list string) : string :=
  "LLM provided disallowed assignments:" +:+ String nl "- "
  +:+ join (String nl "- ") issues.

(** Lines 253-256. *)
Definition apply_validated (this : DayPlanner) (validated : list Assignment) : DayPlanner :=
  fold_left (λ this assignment,
               assignActivity this (activity assignment) (startTime assignment))
    validated this.

(** Lines 249-256: the end of the call, once the loop has run. *)
Definition conclude (this : DayPlanner) (v : validation) : completion unit * DayPlanner :=
  match issues v with
  | [] => (Normal tt, apply_validated this (validatedAssignments v))
  | _ :: _ => (Throw (Error (disallowed (issues v))), this)
  end.

(** ** The schedule view *)

(** Lines 271-274. *)
Definition empty_schedule : gmap Z (list Activity) :=
  fold_left (λ schedule i, <[i := []]> schedule) (seqZ 0 48) ∅.

(** Lines 282-287 for one assignment, [slot] standing for [startTime + i] and
    [n] for the turns left.  [schedule[slot]] is [undefined] outside the keys
    of the object, and [undefined.push] throws. *)
Fixpoint place (schedule : gmap Z (list Activity)) (activity : Activity) (slot : Z)
    (n : nat) : completion (gmap Z (list Activity)) :=
  match n with
  | O => Normal schedule
  | S n' =>
      if slot <? 48 then
        match schedule !! slot with
        | Some occupants =>
            place (<[slot := occupants ++ [activity]]> schedule) activity (slot + 1) n'
        | None => Throw TypeError
        end
      else place schedule activity (slot + 1) n'
  end.

Fixpoint place_all (schedule : gmap Z (list Activity)) (l : list Assignment)
  : completion (gmap Z (list Activity)) :=
  match l with
  | [] => Normal schedule
  | assignment :: rest =>
      match place schedule (activity assignment) (startTime assignment)
              (Z.to_nat (duration (activity assignment))) with
      | Normal schedule' => place_all schedule' rest
      | Throw e => Throw e
      end
  end.

Definition getSchedule (this : DayPlanner) : completion (gmap Z (list Activity)) :=
  place_all empty_schedule (assignments this).

(** ** The calls that need [JSON.parse] *)

Section Batch.

(** The host's [JSON.parse]: [None] when it throws its [SyntaxError]. *)
Variable JSON_parse : string -> option JSON.

(** A call returns a completion and the planner as the call leaves it. *)
Definition parseAndApplyAssignments (this : DayPlanner) (responseText : string)
    (unassignedActivities : list Activity) : completion unit * DayPlanner :=
  match match_json responseText with
  | None => (Throw (Error "No JSON found in response"), this)
  | Some jsonMatch =>
      match JSON_parse jsonMatch with
      | None => (Throw SyntaxError, this)
      | Some response =>
          match response_assignments response with
          | Throw e => (Throw e, this)
          | Normal rawAssignments =>
              conclude this (validate this unassignedActivities rawAssignments)
          end
      end
  end.

(** The entries the call reads out of a reply, when it gets as far as the
    loop. *)
Definition payload (responseText : string) : option (list JSON) :=
  match match_json responseText with
  | None => None
  | Some jsonMatch =>
      match JSON_parse jsonMatch with
      | None => None
      | Some response =>
          match response_assignments response with
          | Normal rawAssignments => Some rawAssignments
          | Throw _ => None
          end
      end
  end.

(** [assignActivities(llm)].  [llm] is how [llm.executeLLM(prompt)]
    completes: with the reply's text, or with whatever it throws.  The
    prompt only travels to the model, whose reply nothing constrains, so its
    text is not built here. *)
Definition assignActivities (this : DayPlanner) (llm : completion string)
  : completion unit * DayPlanner :=
  let unassignedActivities :=
    filter (λ a, isAssigned this a = false) (activities this) in
  match unassignedActivities with
  | [] => (Normal tt, this)
  | _ :: _ =>
      match llm with
      | Throw e => (Throw e, this)
      | Normal text => parseAndApplyAssignments this text unassignedActivities
      end
  end.

(** *** Sequences of public calls *)

Inductive call :=
| AddActivity (title : string) (duration : Z)
| RemoveActivity (activity : Activity)
| AssignActivity (activity : Activity) (startTime : Z)
| UnassignActivity (activity : Activity)
| AssignActivities (llm : completion string).

Definition perform (this : DayPlanner) (c : call) : DayPlanner :=
  match c with
  | AddActivity title duration => snd (addActivity this title duration)
  | RemoveActivity activity => removeActivity this activity
  | AssignActivity activity startTime => assignActivity this activity startTime
  | UnassignActivity activity => unassignActivity this activity
  | AssignActivities llm => snd (assignActivities this llm)
  end.

Definition run (calls : list call) : DayPlanner :=
  fold_left perform calls new_DayPlanner.

End Batch.

(** ** Properties stated about the planner *)

(** No assignment of the planner refers to [a]. *)
Definition unassigned_in (this : DayPlanner) (a : Activity) : Prop :=
  Forall (λ assignment, ¬ refers_to a assignment) (assignments this).

(** The identities handed out so far: those of [activities] are below the
    counter and differ from one another. *)
Definition allocated (this : DayPlanner) : Prop :=
  Forall (λ a, (ref a < next_ref this)%nat) (activities this)
  ∧ NoDup (ref <$> activities this).

(** The assignment ends by the end of the 48-slot day. *)
Definition fits (assignment : Assignment) : Prop :=
  startTime assignment + duration (activity assignment) <= 48.

(** The assignment covers [slot]: the slot lies in
    [startTime, startTime + duration). *)
Definition covers (slot : Z) (assignment : Assignment) : Prop :=
  startTime assignment <= slot < startTime assignment + duration (activity assignment).

#[global] Instance covers_dec slot assignment : Decision (covers slot assignment).
Proof. unfold covers. apply _. Defined.

(** A direct [assignActivity] whose arguments keep the activity within the
    day; the other calls are not restricted. *)
Definition ends_within_day (c : call) : Prop :=
  match c with
  | AssignActivity activity startTime => startTime + duration activity <= 48
  | _ => True
  end.

(** [part] occurs in [message]. *)
Definition carries (message part : string) : Prop :=
  ∃ before after, message = before +:+ part +:+ after.

(** The entry names [title]: its [title] property is that string. *)
Definition names (title : string) (rawAssignment : JSON) : Prop :=
  match property "title" rawAssignment with
  | Some (JStr s) => s = title
  | _ => False
  end.

#[global] Instance names_dec title rawAssignment : Decision (names title rawAssignment).
Proof. unfold names. repeat case_match; apply _. Defined.

(** The entry proposes the integer slot [t]. *)
Definition proposes (t : Z) (rawAssignment : JSON) : Prop :=
  property "startTime" rawAssignment = Some (JNum (Int t)).

(** The assignment starts within the day and ends by its end. *)
Definition in_day (assignment : Assignment) : Prop :=
  0 <= startTime assignment <= 47 ∧ fits assignment.

(** A turn of the validation loop that records an issue: one message more,
    nothing validated, nothing marked occupied. *)
Definition rejected (v v' : validation) : Prop :=
  ∃ message,
    issues v' = issues v ++ [message]
    ∧ validatedAssignments v' = validatedAssignments v
    ∧ occupiedSlots v' = occupiedSlots v.

(** A turn that validates its entry: the entry names a title whose queue has
    a head, proposes an integer slot at which the head fits in the day and
    meets nothing occupied; the head leaves the queue and is bound to the
    slot. *)
Definition accepted (v : validation) (rawAssignment : JSON) (v' : validation) : Prop :=
  ∃ title a pool t,
    names title rawAssignment ∧ proposes t rawAssignment
    ∧ activitiesByTitle v !! title = Some (a :: pool)
    ∧ 0 <= t <= 47 ∧ t + duration a <= 48
    ∧ first_conflict (occupiedSlots v) t (Z.to_nat (duration a)) = None
    ∧ v' = {| activitiesByTitle := <[title := pool]> (activitiesByTitle v);
              occupiedSlots := occupy (occupiedSlots v) a t (Z.to_nat (duration a));
              issues := issues v;
              validatedAssignments :=
                validatedAssignments v ++ [{| activity := a; startTime := t |}] |}.

(** A run of the loop in which every turn validates its entry. *)
Inductive all_accepted : validation → list JSON → validation → Prop :=
| all_accepted_nil v : all_accepted v [] v
| all_accepted_cons v rawAssignment v1 rest v' :
    accepted v rawAssignment v1 →
    all_accepted v1 rest v' →
    all_accepted v (rawAssignment :: rest) v'.

(** The queue of [T]: the activities of the list that carry this title, in
    the order of the list. *)
Definition queue (T : string) (l : list Activity) : list Activity :=
  filter (λ a, title a = T) l.

(** The array a [Map] of queues holds under [T], empty when it holds none. *)
Definition pool_of (m : gmap string (list Activity)) (T : string) : list Activity :=
  default [] (m !! T).

(** The slot an entry proposes, for entries that propose an integer. *)
Definition start_of (rawAssignment : JSON) : Z :=
  match property "startTime" rawAssignment with
  | Some (JNum (Int t)) => t
  | _ => 0
  end.

Definition bind (a : Activity) (rawAssignment : JSON) : Assignment :=
  {| activity := a; startTime := start_of rawAssignment |}.

(** After the entries [done], all validated: the queue of each title has
    lost one head per entry naming the title, and these heads are bound, in
    order, to the slots those entries propose. *)
Definition tracks (unassigned : list Activity) (done : list JSON) (v : validation) : Prop :=
  ∀ T,
    pool_of (activitiesByTitle v) T
    = drop (length (filter (names T) done)) (queue T unassigned)
    ∧ filter (λ assignment, title (activity assignment) = T) (validatedAssignments v)
      = zip_with bind (queue T unassigned) (filter (names T) done)
    ∧ (length (filter (names T) done) <= length (queue T unassigned))%nat.

(** [c] occurs in [s]. *)
Fixpoint occurs (c : ascii) (s : string) : bool :=
  match s with
  | EmptyString => false
  | String c' rest => Ascii.eqb c' c || occurs c rest
  end.

(** [block] is the part of [text] that runs from its first opening brace to
    its last closing brace. *)
Definition brace_span (text block : string) : Prop :=
  ∃ before body after,
    text = before +:+ block +:+ after
    ∧ block = String "{" (body +:+ "}")
    ∧ occurs "{" before = false
    ∧ occurs "}" after = false.

(** No opening brace of [text] has a closing brace after it. *)
Definition no_brace_span (text : string) : Prop :=
  ∀ before rest, text = before +:+ String "{" rest → occurs "}" rest = false.

(** The assignment covers no slot below 0. *)
Definition from_slot_0 (assignment : Assignment) : Prop :=
  0 < duration (activity assignment) → 0 <= startTime assignment.

(** [schedule] is the view of the assignments [l]: its keys are the slots 0
    to 47, and each holds, in the order of [l], the activities of the
    assignments that cover it. *)
Definition view_of (l : list Assignment) (schedule : gmap Z (list Activity)) : Prop :=
  ∀ slot : Z,
    schedule !! slot
    = if bool_decide (0 <= slot < 48)
      then Some (activity <$> filter (covers slot) l)
      else None.

(** ** Example replies and planners *)

(** The text of one entry and of a whole payload, as the prompt asks for
    them. *)
Definition entry (name : string) (slot : Z) : string :=
  "{" +:+ quoted "title" +:+ ":" +:+ quoted name +:+ ","
  +:+ quoted "startTime" +:+ ":" +:+ toString slot +:+ "}".

Definition reply (entries : list string) : string :=
  "{" +:+ quoted "assignments" +:+ ":[" +:+ join "," entries +:+ "]}".

(** The entry [{title, startTime}] as a value. *)
Definition proposal (name : string) (slot : Z) : JSON :=
  JObj [("title"%string, JStr name); ("startTime"%string, JNum (Int slot))].

Definition activity_0 (name : string) (d : Z) : Activity :=
  {| ref := 0; title := name; duration := d |}.
Definition activity_1 (name : string) (d : Z) : Activity :=
  {| ref := 1; title := name; duration := d |}.
Definition activity_2 (name : string) (d : Z) : Activity :=
  {| ref := 2; title := name; duration := d |}.

(** Two activities titled Study, of durations 2 then 3, both unassigned. *)
Definition two_studies : DayPlanner :=
  run JSONText.parse [AddActivity "Study" 2; AddActivity "Study" 3].

(** Lunch is assigned to slot 26; Snack and Nap are not assigned. *)
Definition lunch_day : DayPlanner :=
  run JSONText.parse
    [AddActivity "Lunch" 1; AddActivity "Snack" 2; AddActivity "Nap" 4;
     AssignActivity (activity_0 "Lunch" 1) 26].

(** Two activities titled Gym, a batch that places both, then a direct
    assignment of the first to the last two slots of the day. *)
Definition gym_calls : list call :=
  [AddActivity "Gym" 2; AddActivity "Gym" 2;
   AssignActivities (Normal (reply [entry "Gym" 10; entry "Gym" 14]));
   AssignActivity (activity_0 "Gym" 2) 46].

(** A five-slot activity assigned to slot 47 by a direct call. *)
Definition late_calls : list call :=
  [AddActivity "Nap" 5; AssignActivity (activity_0 "Nap" 5) 47].

(** A one-slot activity assigned to slot -1 by a direct call. *)
Definition early_calls : list call :=
  [AddActivity "Nap" 1; AssignActivity (activity_0 "Nap" 1) (-1)].

(** ** Further properties of the planner *)

(** Every activity has at most one assignment in [l]. *)
Definition one_per_activity (l : list Assignment) : Prop :=
  ∀ x : Activity, (length (filter (refers_to x) l) <= 1)%nat.

(** Every slot is covered by at most one assignment of [l]. *)
Definition one_per_slot (l : list Assignment) : Prop :=
  ∀ slot : Z, (length (filter (covers slot) l) <= 1)%nat.

(** Every assignment of the planner is of an activity the planner holds. *)
Definition stored (this : DayPlanner) : Prop :=
  Forall (λ assignment, activity assignment ∈ activities this) (assignments this).

(** [occupied] marks the slots the assignments of [l] cover, and no other:
    a marked slot is covered by an assignment of the activity it is marked
    with, and a covered slot is marked. *)
Definition marks (l : list Assignment) (occupied : gmap Z Activity) : Prop :=
  ∀ slot : Z,
    (∀ b, occupied !! slot = Some b →
          ∃ assignment, assignment ∈ l ∧ covers slot assignment
                        ∧ activity assignment = b)
    ∧ (∀ assignment, assignment ∈ l → covers slot assignment →
                     is_Some (occupied !! slot)).

(** No assignment of [l] covers a slot that [assignment] covers. *)
Definition clear_of (l : list Assignment) (assignment : Assignment) : Prop :=
  ∀ slot, covers slot assignment → Forall (λ other, ¬ covers slot other) l.

(** Each assignment of the list is clear of [base] and of those before it. *)
Fixpoint clear_chain (base validated : list Assignment) : Prop :=
  match validated with
  | [] => True
  | assignment :: rest =>
      clear_of base assignment ∧ clear_chain (base ++ [assignment]) rest
  end.

(** What the validation loop keeps, turn after turn: its occupancy map marks
    the slots of the existing assignments and of the validated entries, and
    each validated entry is clear of the existing assignments and of the
    entries validated before it. *)
Definition loop_keeps (this : DayPlanner) (v : validation) : Prop :=
  marks (assignments this ++ validatedAssignments v) (occupiedSlots v)
  ∧ clear_chain (assignments this) (validatedAssignments v).

(** The assignment is what the entry asks for: an activity with the title
    the entry names, at the slot the entry proposes. *)
Definition answers (rawAssignment : JSON) (assignment : Assignment) : Prop :=
  names (title (activity assignment)) rawAssignment
  ∧ proposes (startTime assignment) rawAssignment.

(** The call passes an activity the planner holds, where it is a direct
    [assignActivity]; other calls are not restricted. *)
Definition passes_stored (this : DayPlanner) (c : call) : Prop :=
  match c with
  | AssignActivity activity _ => activity ∈ activities this
  | _ => True
  end.

#[global] Instance from_slot_0_dec assignment : Decision (from_slot_0 assignment).
Proof. unfold from_slot_0. apply _. Defined.

(** The hour of a slot on the 12-hour dial. *)
Definition dial_hour (slot : Z) : Z :=
  let h := (slot / 2) mod 12 in if h =? 0 then 12 else h.

(** The text of a slot of the day, read off the clock. *)
Definition clock_text (slot : Z) : string :=
  toString (dial_hour slot) +:+ ":" +:+ (if Z.even slot then "00" else "30")
  +:+ (if slot <? 24 then " AM" else " PM").

(** ** The prompt *)

(** The text of [n * 0.5] for an integer [n]: a whole number, or one that
    ends in [.5] (as JavaScript prints it below 10^21 in absolute value). *)
Definition halves (n : Z) : string :=
  if Z.even n then toString (n / 2)
  else (if n <? 0 then "-" else "") +:+ toString (Z.abs n / 2) +:+ ".5".

(** [durationStr] of lines 309 and 318. *)
Definition prompt_duration (d : Z) : string :=
  if d =? 1 then "30 minutes" else halves d +:+ " hours".

(** The line of one activity (line 310) and of one assignment (line 319). *)
Definition activity_line (a : Activity) : string :=
  "- " +:+ title a +:+ " (" +:+ prompt_duration (duration a) +:+ ")".

Definition assignment_line (assignment : Assignment) : string :=
  "- " +:+ title (activity assignment) +:+ " at "
  +:+ formatTimeSlot (startTime assignment)
  +:+ " (" +:+ prompt_duration (duration (activity assignment)) +:+ ")".

Definition activitiesToString (activities : list Activity) : string :=
  join (String nl "") (activity_line <$> activities).

Definition assignmentsToString (assignments : list Assignment) : string :=
  join (String nl "") (assignment_line <$> assignments).

(** Lines 102-113. *)
Definition criticalRequirements (existingAssignments : list Assignment) : list string :=
  let always :=
    ["1. ONLY assign the activities listed above - do NOT add any new activities";
     "2. Use ONLY valid time slots (0-47)";
     "3. Avoid conflicts - don't overlap activities";
     "4. Consider the duration of each activity when scheduling";
     "5. Use appropriate time slots based on the preferences above";
     "6. Never assign an activity to more than one time slot"] in
  match existingAssignments with
  | [] => always
  | _ :: _ =>
      always
      ++ [toString (Z.of_nat (length always) + 1)
          +:+ ". Keep the existing assignments listed above exactly as they are (no overlaps or changes)"]
  end.

(** Lines 98-100. *)
Definition existingAssignmentsSection (existingAssignments : list Assignment) : string :=
  match existingAssignments with
  | [] => ""
  | _ :: _ =>
      String nl "EXISTING ASSIGNMENTS (ALREADY SCHEDULED - DO NOT MODIFY):"
      +:+ String nl (assignmentsToString existingAssignments) +:+ String nl ""
  end.

(** Lines 115-148, line by line; the template starts with a line break. *)
Definition createAssignmentPrompt (activities : list Activity)
    (existingAssignments : list Assignment) : string :=
  join (String nl "")
    ["";
     "You are a helpful AI assistant that creates optimal daily schedules for students.";
     "";
     "STUDENT PREFERENCES:";
     "- Exercise activities work well in the morning (6:00 AM - 10:00 AM)";
     "- Classes and study time should be scheduled during focused hours (9:00 AM - 5:00 PM)";
     "- Meals should be at regular intervals (breakfast 7-9 AM, lunch 12-1 PM, dinner 6-8 PM)";
     "- Social activities and relaxation are good for evenings (6:00 PM - 10:00 PM)";
     "- Avoid scheduling demanding activities too late at night (after 10:00 PM)";
     "- Leave buffer time between different types of activities";
     "";
     "TIME SYSTEM:";
     "- Times are represented in half-hour slots starting at midnight";
     "- Slot 0 = 12:00 AM, Slot 13 = 6:30 AM, Slot 26 = 1:00 PM, Slot 38 = 7:00 PM, etc.";
     "- There are 48 slots total (24 hours x 2)";
     "- Valid slots are 0-47 (midnight to 11:30 PM)";
     "";
     ""]
  +:+ existingAssignmentsSection existingAssignments
  +:+ join (String nl "")
        ["ACTIVITIES TO SCHEDULE (ONLY THESE - DO NOT ADD OTHERS):";
         activitiesToString activities;
         "";
         "CRITICAL REQUIREMENTS:";
         join (String nl "") (criticalRequirements existingAssignments);
         "";
         "Return your response as a JSON object with this exact structure:";
         "{";
         "  " +:+ quoted "assignments" +:+ ": [";
         "    {";
         "      " +:+ quoted "title" +:+ ": " +:+ quoted "exact activity title from the list above" +:+ ",";
         "      " +:+ quoted "startTime" +:+ ": valid_slot_number_0_to_47";
         "    }";
         "  ]";
         "}";
         "";
         "Return ONLY the JSON object, no additional text."].

(** Lines 59-68 of [assignActivities]: the prompt passed to the model, when
    the call gets that far. *)
Definition prompt_sent (this : DayPlanner) : option string :=
  match filter (λ a, isAssigned this a = false) (activities this) with
  | [] => None
  | unassignedActivities =>
      Some (createAssignmentPrompt unassignedActivities (assignments this))
  end.

(** The requirement added when there are existing assignments. *)
Definition keep_existing : string :=
  "7. Keep the existing assignments listed above exactly as they are (no overlaps or changes)".

(** ** The display *)

(** [durationStr] of lines 349 and 365. *)
Definition display_duration (d : Z) : string :=
  if d =? 1 then "30 min" else halves d +:+ " hours".

(** [[...new Set(activities)]]: the first occurrence of each object. *)
Fixpoint unique (activities : list Activity) : list Activity :=
  match activities with
  | [] => []
  | a :: rest => a :: filter (λ b, ref b ≠ ref a) (unique rest)
  end.

(** [this.assignments.find(a => a.activity === activity)?.startTime === slot]. *)
Definition starts_at (this : DayPlanner) (slot : Z) (activity : Activity) : bool :=
  bool_decide (startTime <$> head (filter (refers_to activity) (assignments this))
               = Some slot).

(** Line 350. *)
Definition schedule_line (slot : Z) (a : Activity) : string :=
  formatTimeSlot slot +:+ " - " +:+ title a
  +:+ " (" +:+ display_duration (duration a) +:+ ")".

(** Line 366. *)
Definition unassigned_line (a : Activity) : string :=
  "- " +:+ title a +:+ " (" +:+ display_duration (duration a) +:+ ")".

Definition schedule_header : list string :=
  [String nl "📅 Daily Schedule"; "=================="].

Definition unassigned_header : list string :=
  [String nl "📋 Unassigned Activities"; "========================"].

(** Lines 335-354: the loop over the slots, with what has been logged so
    far and the flag [hasActivities]; it returns the log and how the loop
    completes.  [schedule[slot]] is [undefined] outside the keys of the
    object, and [undefined.length] throws. *)
Fixpoint show_slots (this : DayPlanner) (schedule : gmap Z (list Activity))
    (slots : list Z) (log : list string) (hasActivities : bool)
  : list string * completion bool :=
  match slots with
  | [] => (log, Normal hasActivities)
  | slot :: rest =>
      match schedule !! slot with
      | None => (log, Throw TypeError)
      | Some [] => show_slots this schedule rest log hasActivities
      | Some (first :: others) =>
          let activities := first :: others in
          if existsb (starts_at this slot) activities then
            show_slots this schedule rest
              (log ++ (schedule_line slot <$> unique activities)) true
          else show_slots this schedule rest log true
      end
  end.

(** Lines 360-370. *)
Definition unassigned_section (this : DayPlanner) : list string :=
  unassigned_header
  ++ match filter (λ a, isAssigned this a = false) (activities this) with
     | [] => ["All activities are assigned!"]
     | unassigned => unassigned_line <$> unassigned
     end.

(** [displaySchedule()]: what it logs, one string per [console.log], and how
    it completes. *)
Definition displaySchedule (this : DayPlanner) : list string * completion unit :=
  match getSchedule this with
  | Throw e => ([], Throw e)
  | Normal schedule =>
      match show_slots this schedule (seqZ 0 48) schedule_header false with
      | (log, Throw e) => (log, Throw e)
      | (log, Normal hasActivities) =>
          ((if hasActivities then log else log ++ ["No activities scheduled yet."])
           ++ unassigned_section this,
           Normal tt)
      end
  end.

(** What the loop logs for one slot, and whether the slot holds an
    activity. *)
Definition slot_lines (this : DayPlanner) (schedule : gmap Z (list Activity))
    (slot : Z) : list string :=
  match schedule !! slot with
  | Some (first :: others) =>
      if existsb (starts_at this slot) (first :: others)
      then schedule_line slot <$> unique (first :: others)
      else []
  | _ => []
  end.

Definition slot_taken (schedule : gmap Z (list Activity)) (slot : Z) : bool :=
  match schedule !! slot with
  | Some (_ :: _) => true
  | _ => false
  end.

(** No assignment covers a slot of the day. *)
Definition day_is_free (this : DayPlanner) : Prop :=
  ∀ x slot, x ∈ assignments this → 0 <= slot < 48 → ¬ covers slot x.

(** ** Further examples *)

(** An activity no planner of the examples holds. *)
Definition walk : Activity := {| ref := 9; title := "Walk"; duration := 1 |}.

(** A reply that places Snack at slot 10 and Nap at slot 20. *)
Definition snack_and_nap : string := reply [entry "Snack" 10; entry "Nap" 20].

(** The two Gym activities after the calls of [gym_calls]: both assigned. *)
Definition gym_day : DayPlanner := run JSONText.parse gym_calls.

(** ** The store: direct calls *)

Section Store.

Implicit Types (this : DayPlanner) (a b : Activity) (t : Z).

Lemma filter_none {A} (P : A → Prop) `{∀ x, Decision (P x)} (l : list A) :
  Forall (λ x, ¬ P x) l → filter P l = [].
Proof.
  induction 1 as [|x l Hx _ IH]; [done|].
  by rewrite filter_cons_False.
Qed.

Lemma filter_all {A} (P : A → Prop) `{∀ x, Decision (P x)} (l : list A) :
  Forall P l → filter P l = l.
Proof.
  induction 1 as [|x l Hx _ IH]; [done|].
  rewrite filter_cons_True by done. by rewrite IH.
Qed.

Lemma Forall_filter_holds {A} (P : A → Prop) `{∀ x, Decision (P x)} (l : list A) :
  Forall P (filter P l).
Proof. apply Forall_forall. intros x Hx. by apply list_elem_of_filter in Hx as [? _]. Qed.

Lemma unassign_unassigned this a : unassigned_in (unassignActivity this a) a.
Proof. apply (Forall_filter_holds (λ assignment, ¬ refers_to a assignment)). Qed.

Lemma isAssigned_false this a : isAssigned this a = false ↔ unassigned_in this a.
Proof.
  unfold isAssigned, unassigned_in. rewrite bool_decide_eq_false.
  split.
  - intros Hno. apply Forall_forall. intros x Hx Hr. apply Hno.
    apply Exists_exists. eauto.
  - intros Hall Hex. apply Exists_exists in Hex as (x & Hx & Hr).
    rewrite Forall_forall in Hall. by apply (Hall x).
Qed.

(** The assignments of [a] after [assignActivity this a t]: the new one and
    no other. *)
Lemma assign_own this a t :
  filter (refers_to a) (assignments (assignActivity this a t))
  = [{| activity := a; startTime := t |}].
Proof.
  cbn. rewrite filter_app, filter_cons_True, filter_nil by done.
  rewrite filter_none; [done|].
  apply (Forall_filter_holds (λ assignment, ¬ refers_to a assignment)).
Qed.

(** The assignments of another activity are left as they were. *)
Lemma assign_other this a b t :
  ref b ≠ ref a →
  filter (refers_to b) (assignments (assignActivity this a t))
  = filter (refers_to b) (assignments this).
Proof.
  intros Hne. cbn. rewrite filter_app.
  rewrite filter_cons_False by (unfold refers_to; cbn; congruence).
  rewrite filter_nil, app_nil_r, list_filter_filter.
  apply list_filter_iff. intros x. unfold refers_to. split; [tauto|].
  intros Hx. split; [done|]. congruence.
Qed.

Lemma allocated_new : allocated new_DayPlanner.
Proof. split; [constructor | cbn; constructor]. Qed.

Lemma allocated_add this title duration :
  allocated this → allocated (snd (addActivity this title duration)).
Proof.
  intros [Hlt Hnd]. split; cbn.
  - apply Forall_app. split.
    + eapply Forall_impl; [exact Hlt|]. cbn. lia.
    + repeat constructor.
  - rewrite fmap_app. apply NoDup_app. split; [done|]. split.
    + intros x Hx Hin. cbn in Hin. apply list_elem_of_singleton in Hin as ->.
      apply list_elem_of_fmap in Hx as (b & Hb & Hin).
      rewrite Forall_forall in Hlt. specialize (Hlt b Hin). lia.
    + cbn. apply NoDup_singleton.
Qed.

Lemma NoDup_ref_filter (P : Activity → Prop) `{∀ x, Decision (P x)} (l : list Activity) :
  NoDup (ref <$> l) → NoDup (ref <$> filter P l).
Proof.
  induction l as [|x l IH]; [done|].
  rewrite fmap_cons, NoDup_cons. intros [Hx Hl].
  rewrite filter_cons. destruct (decide (P x)); [|by apply IH].
  rewrite fmap_cons. apply NoDup_cons. split; [|by apply IH].
  intros Hin. apply Hx. apply list_elem_of_fmap in Hin as (y & -> & Hy).
  apply list_elem_of_fmap. exists y. split; [done|].
  by apply list_elem_of_filter in Hy as [_ ?].
Qed.

Lemma allocated_remove this a : allocated this → allocated (removeActivity this a).
Proof.
  intros [Hlt Hnd]. split; cbn.
  - apply Forall_forall. intros x Hx. apply list_elem_of_filter in Hx as [_ Hx].
    rewrite Forall_forall in Hlt. by apply Hlt.
  - by apply NoDup_ref_filter.
Qed.

(** C7. Calling [assignActivity(a, t)] twice in succession with the same
    arguments leaves exactly one assignment for [a], and its start time is
    [t] (for every activity, in the store or not). *)
Theorem C7_assign_twice_is_assign_once this a t :
  let that := assignActivity (assignActivity this a t) a t in
  filter (refers_to a) (assignments that) = [{| activity := a; startTime := t |}].
Proof. apply assign_own. Qed.

(** C8. [unassignActivity(a)] returns without failing in every state.
    After it no assignment refers to [a], the assignments of the other
    activities and the activities themselves are as before; and when [a]
    had no assignment, the planner as a whole is as before. *)
Theorem C8_unassign_removes_or_does_nothing this a :
  let that := unassignActivity this a in
  unassigned_in that a
  ∧ filter (λ assignment, ¬ refers_to a assignment) (assignments that)
    = filter (λ assignment, ¬ refers_to a assignment) (assignments this)
  ∧ activities that = activities this
  ∧ (isAssigned this a = false → that = this).
Proof.
  cbn. split; [apply unassign_unassigned|]. split; [|split; [done|]].
  - apply filter_all, (Forall_filter_holds (λ assignment, ¬ refers_to a assignment)).
  - intros Hfree%isAssigned_false. unfold unassignActivity.
    rewrite (filter_all _ _ Hfree). by destruct this.
Qed.

(** C9. After [assignActivity(a, t)], [removeActivity(a)] leaves no
    assignment that refers to [a], and no activity with its identity. *)
Theorem C9_remove_drops_the_assignment this a t :
  let that := removeActivity (assignActivity this a t) a in
  unassigned_in that a
  ∧ isAssigned that a = false
  ∧ Forall (λ b, ref b ≠ ref a) (activities that).
Proof.
  cbn.
  assert (unassigned_in (removeActivity (assignActivity this a t) a) a) as Hfree.
  { apply (Forall_filter_holds (λ assignment, ¬ refers_to a assignment)). }
  split; [done|]. split; [by apply isAssigned_false|].
  apply (Forall_filter_holds (λ b, ref b ≠ ref a)).
Qed.

End Store.

(** ** The validation loop *)

Section Validation.

Implicit Types (v : validation) (raw : JSON).

Lemma validate_one_cases v raw :
  rejected v (validate_one v raw) ∨ accepted v raw (validate_one v raw).
Proof.
  unfold validate_one.
  repeat case_match; subst;
    try (left; eexists; cbn; repeat split; reflexivity).
  right. unfold accepted, names, proposes.
  match goal with H : property "title" raw = Some (JStr ?s) |- _ =>
    exists s; rewrite H end.
  do 3 eexists. repeat split; try eassumption; try reflexivity; lia.
Qed.

Lemma issues_step v raw :
  (length (issues v) <= length (issues (validate_one v raw)))%nat.
Proof.
  destruct (validate_one_cases v raw) as [(m & -> & _)|(?&?&?&?&_&_&_&_&_&_& ->)].
  - rewrite length_app. cbn. lia.
  - cbn. lia.
Qed.

Lemma issues_run raws : ∀ v,
  (length (issues v) <= length (issues (fold_left validate_one raws v)))%nat.
Proof.
  induction raws as [|raw raws IH]; intros v; cbn; [lia|].
  etransitivity; [apply (issues_step v raw)|apply IH].
Qed.

Lemma no_issue_all_accepted raws : ∀ v,
  issues (fold_left validate_one raws v) = issues v →
  all_accepted v raws (fold_left validate_one raws v).
Proof.
  induction raws as [|raw raws IH]; intros v Hsame; cbn in *; [constructor|].
  pose proof (issues_run raws (validate_one v raw)) as Hle.
  rewrite Hsame in Hle.
  destruct (validate_one_cases v raw) as [(m & Hm & _)|Hacc].
  - rewrite Hm, length_app in Hle. cbn in Hle. lia.
  - econstructor; [exact Hacc|]. apply IH.
    destruct Hacc as (?&?&?&?&_&_&_&_&_&_& Heq).
    rewrite Hsame. by rewrite Heq.
Qed.

(** Whatever the entries, what has been validated lies within the day. *)
Lemma validated_in_day_step v raw :
  Forall in_day (validatedAssignments v) →
  Forall in_day (validatedAssignments (validate_one v raw)).
Proof.
  intros Hv.
  destruct (validate_one_cases v raw)
    as [(m & _ & -> & _)|(?&a&?&t&_&_&_&?&?&_& ->)]; [done|].
  cbn. apply Forall_app. split; [done|].
  constructor; [|constructor]. unfold in_day, fits. cbn. lia.
Qed.

Lemma validated_in_day this unassignedActivities rawAssignments :
  Forall in_day
    (validatedAssignments (validate this unassignedActivities rawAssignments)).
Proof.
  unfold validate.
  set (v0 := {| activitiesByTitle := _ |}).
  assert (Forall in_day (validatedAssignments v0)) as H0 by constructor.
  clearbody v0. revert v0 H0.
  induction rawAssignments as [|raw raws IH]; intros v0 H0; cbn; [done|].
  apply IH. by apply validated_in_day_step.
Qed.

End Validation.

(** ** The queues of the batch path *)

Section Pools.

Implicit Types (v : validation) (raw : JSON) (a b : Activity) (T : string).

Lemma pool_of_push m a T :
  pool_of (pool_push m a) T
  = pool_of m T ++ (if decide (title a = T) then [a] else []).
Proof.
  unfold pool_of, pool_push. destruct (decide (title a = T)) as [<-|Hne].
  - by rewrite lookup_insert_eq.
  - rewrite lookup_insert_ne by done. by rewrite app_nil_r.
Qed.

Lemma pool_of_fold l : ∀ m T,
  pool_of (fold_left pool_push l m) T = pool_of m T ++ queue T l.
Proof.
  induction l as [|a l IH]; intros m T.
  - cbn. by rewrite app_nil_r.
  - change (fold_left pool_push (a :: l) m)
      with (fold_left pool_push l (pool_push m a)).
    rewrite IH, pool_of_push. unfold queue. rewrite filter_cons.
    destruct (decide (title a = T)); by rewrite <- ?app_assoc, ?app_nil_r.
Qed.

(** The queues the loop starts from. *)
Lemma pool_of_group l T : pool_of (group_by_title l) T = queue T l.
Proof. unfold group_by_title. by rewrite pool_of_fold. Qed.

Lemma names_functional T T' raw : names T raw → names T' raw → T = T'.
Proof.
  unfold names. destruct (property "title" raw) as [[]|]; try tauto.
  congruence.
Qed.

Lemma proposes_start t raw : proposes t raw → start_of raw = t.
Proof. unfold proposes, start_of. by intros ->. Qed.

Lemma zip_with_snoc {A B C} (f : A → B → C) (x : A) (y : B) (k : list B) :
  ∀ l : list A, l !! length k = Some x →
  zip_with f l (k ++ [y]) = zip_with f l k ++ [f x y].
Proof.
  induction k as [|z k IH]; intros [|w l] Hl; cbn in *; try done.
  - injection Hl as ->. by destruct l.
  - by rewrite IH.
Qed.

Lemma tracks_start this unassigned :
  tracks unassigned []
    {| activitiesByTitle := group_by_title unassigned;
       occupiedSlots := existing_occupancy this;
       issues := [];
       validatedAssignments := [] |}.
Proof.
  intros T. cbn. rewrite pool_of_group. repeat split; [|lia].
  by destruct (queue T unassigned).
Qed.

Lemma tracks_step unassigned done v raw v1 :
  accepted v raw v1 → tracks unassigned done v → tracks unassigned (done ++ [raw]) v1.
Proof.
  intros (T0 & a & pool & t & Hname & Hprop & Hpool & _ & _ & _ & ->) Htr T.
  destruct (Htr T) as (Hq & Hval & Hlen). cbn.
  rewrite filter_app, filter_cons, filter_nil.
  destruct (decide (names T raw)) as [HT|HT].
  - assert (T = T0) as -> by eauto using names_functional.
    unfold pool_of in Hq |- *. rewrite Hpool in Hq. cbn in Hq.
    rewrite lookup_insert_eq. cbn.
    set (k := length (filter (names T0) done)) in *.
    assert (queue T0 unassigned !! k = Some a) as Hk.
    { rewrite <- (Nat.add_0_r k), <- lookup_drop, <- Hq. done. }
    assert (title a = T0) as Ha.
    { apply list_elem_of_lookup_2 in Hk.
      by apply list_elem_of_filter in Hk as [? _]. }
    rewrite length_app. cbn. split; [|split].
    + rewrite (drop_S _ _ _ Hk) in Hq. injection Hq as ->.
      by rewrite Nat.add_1_r.
    + rewrite filter_app, filter_cons_True, filter_nil by done.
      rewrite Hval, (zip_with_snoc _ a) by done.
      unfold bind. by rewrite (proposes_start t).
    + apply lookup_lt_Some in Hk. lia.
  - assert (T0 ≠ T) as Hne by (intros ->; done).
    rewrite app_nil_r. unfold pool_of. rewrite lookup_insert_ne by done.
    split; [done|]. split; [|done].
    rewrite filter_app, filter_cons_False, filter_nil, app_nil_r; [done|].
    cbn. intros Ha. apply Hne. rewrite <- Ha.
    destruct (Htr T0) as (Hq0 & _ & _).
    unfold pool_of in Hq0. rewrite Hpool in Hq0. cbn in Hq0.
    assert (a ∈ queue T0 unassigned) as Hin.
    { apply (list_elem_of_lookup_2 _ (length (filter (names T0) done) + 0)).
      by rewrite <- lookup_drop, <- Hq0. }
    by apply list_elem_of_filter in Hin as [? _].
Qed.

Lemma tracks_run unassigned v raws v' :
  all_accepted v raws v' →
  ∀ done, tracks unassigned done v → tracks unassigned (done ++ raws) v'.
Proof.
  induction 1 as [v|v raw v1 raws v' Hacc _ IH]; intros done Htr.
  - by rewrite app_nil_r.
  - rewrite (assoc_L (++) done [raw] raws : done ++ raw :: raws = (done ++ [raw]) ++ raws).
    apply IH. by eapply tracks_step.
Qed.

End Pools.

(** ** Applying a validated batch *)

Section Apply.

Implicit Types (this : DayPlanner) (a b x : Activity).

Lemma refers_to_same a b assignment :
  ref a = ref b → refers_to a assignment ↔ refers_to b assignment.
Proof. unfold refers_to. intros ->. done. Qed.

(** The assignments of [x] after a batch is applied: the last one the batch
    has for [x], or those the planner had. *)
Lemma apply_validated_own validated : ∀ this x,
  filter (refers_to x) (assignments (apply_validated this validated))
  = match last (filter (refers_to x) validated) with
    | Some assignment => [assignment]
    | None => filter (refers_to x) (assignments this)
    end.
Proof.
  induction validated as [|[a t] validated IH]; intros this x; [done|].
  change (apply_validated this ({| activity := a; startTime := t |} :: validated))
    with (apply_validated (assignActivity this a t) validated).
  rewrite IH, filter_cons.
  destruct (decide (refers_to x {| activity := a; startTime := t |})) as [Hx|Hx].
  - rewrite last_cons.
    destruct (last (filter (refers_to x) validated)); [done|].
    rewrite <- (assign_own this a t).
    apply list_filter_iff. intros y. by apply refers_to_same.
  - destruct (last (filter (refers_to x) validated)); [done|].
    apply assign_other. unfold refers_to in Hx. cbn in Hx. congruence.
Qed.

(** Applying a batch touches neither the activities nor the counter. *)
Lemma apply_validated_activities validated : ∀ this,
  activities (apply_validated this validated) = activities this
  ∧ next_ref (apply_validated this validated) = next_ref this.
Proof.
  induction validated as [|[a t] validated IH]; intros this; [done|].
  change (apply_validated this ({| activity := a; startTime := t |} :: validated))
    with (apply_validated (assignActivity this a t) validated).
  destruct (IH (assignActivity this a t)) as [-> ->]. done.
Qed.

Lemma same_ref_same (l : list Activity) a b :
  NoDup (ref <$> l) → a ∈ l → b ∈ l → ref a = ref b → a = b.
Proof.
  induction l as [|c l IH]; [by intros _ ?%elem_of_nil|].
  rewrite fmap_cons, NoDup_cons. intros [Hc Hl] Ha Hb Href.
  apply elem_of_cons in Ha as [->|Ha]; apply elem_of_cons in Hb as [->|Hb]; eauto.
  - exfalso. apply Hc. rewrite Href. by apply list_elem_of_fmap_2.
  - exfalso. apply Hc. rewrite <- Href. by apply list_elem_of_fmap_2.
Qed.

End Apply.

(** ** Messages *)

Section Strings.

Lemma append_assoc (s1 s2 s3 : string) : (s1 +:+ s2) +:+ s3 = s1 +:+ s2 +:+ s3.
Proof.
  induction s1 as [|c s1 IH]; [done|]. exact (f_equal (String c) IH).
Qed.

Lemma append_empty_r (s : string) : s +:+ "" = s.
Proof.
  induction s as [|c s IH]; [done|]. exact (f_equal (String c) IH).
Qed.

Lemma carries_refl s : carries s s.
Proof. exists ""%string, ""%string. cbn. by rewrite append_empty_r. Qed.

Lemma carries_prepend p s part : carries s part → carries (p +:+ s) part.
Proof.
  intros (before & after & ->). exists (p +:+ before), after.
  by rewrite append_assoc.
Qed.

Lemma carries_first s rest : carries (s +:+ rest) s.
Proof. by exists ""%string, rest. Qed.

(** Every element of a joined list occurs in the result. *)
Lemma join_carries sep (l : list string) part :
  part ∈ l → carries (join sep l) part.
Proof.
  induction l as [|x l IH]; [by intros ?%elem_of_nil|].
  intros Hin. destruct l as [|y l].
  - apply list_elem_of_singleton in Hin as ->. apply carries_refl.
  - change (join sep (x :: y :: l)) with (x +:+ sep +:+ join sep (y :: l)).
    apply elem_of_cons in Hin as [->|Hin].
    + apply carries_first.
    + do 2 apply carries_prepend. by apply IH.
Qed.

Lemma disallowed_carries (l : list string) part :
  part ∈ l → carries (disallowed l) part.
Proof. intros Hin. unfold disallowed. do 2 apply carries_prepend. by apply join_carries. Qed.

End Strings.

(** ** Reading the payload out of a reply *)

Section Extraction.

Lemma through_Some s m :
  through_last_closing_brace s = Some m →
  ∃ body after, s = (body +:+ "}") +:+ after ∧ m = body +:+ "}"
                ∧ occurs "}" after = false.
Proof.
  revert m. induction s as [|c s IH]; intros m; [done|]. cbn.
  destruct (through_last_closing_brace s) as [m'|] eqn:Hs.
  - intros [= <-]. destruct (IH m' eq_refl) as (body & after & -> & -> & Hno).
    by exists (String c body), after.
  - destruct (Ascii.eqb_spec c "}") as [->|_]; [|done].
    intros [= <-]. exists ""%string, s. repeat split.
    clear IH. induction s as [|c s IH]; [done|]. cbn in *.
    destruct (through_last_closing_brace s); [done|].
    destruct (Ascii.eqb_spec c "}"); [done|]. by apply IH.
Qed.

Lemma through_None s :
  through_last_closing_brace s = None → occurs "}" s = false.
Proof.
  induction s as [|c s IH]; [done|]. cbn.
  destruct (through_last_closing_brace s); [done|].
  destruct (Ascii.eqb_spec c "}"); [done|]. intros _. by apply IH.
Qed.

Lemma match_json_needs_closing s : occurs "}" s = false → match_json s = None.
Proof.
  induction s as [|c s IH]; [done|]. cbn.
  intros [_ Hs]%orb_false_iff.
  destruct (through_last_closing_brace s) as [m|] eqn:Hm.
  - apply through_Some in Hm as (body & after & -> & _ & _). exfalso.
    clear IH. induction body as [|c' body IH]; cbn in Hs; [done|].
    apply orb_false_iff in Hs as [_ Hs]. by apply IH.
  - rewrite (IH Hs). by destruct (Ascii.eqb c "{").
Qed.

Lemma match_json_Some text block :
  match_json text = Some block → brace_span text block.
Proof.
  revert block. induction text as [|c text IH]; intros block; [done|]. cbn.
  destruct (Ascii.eqb_spec c "{") as [->|Hc].
  - destruct (through_last_closing_brace text) as [m|] eqn:Hm.
    + intros [= <-]. apply through_Some in Hm as (body & after & -> & -> & Hno).
      by exists ""%string, body, after.
    + apply through_None in Hm. by rewrite (match_json_needs_closing _ Hm).
  - intros (before & body & after & -> & -> & Hb & Ha)%IH.
    exists (String c before), body, after. repeat split; [|done]. cbn.
    rewrite Hb. by destruct (Ascii.eqb_spec c "{").
Qed.

Lemma match_json_None text : match_json text = None → no_brace_span text.
Proof.
  induction text as [|c text IH]; intros Hnone before rest Heq.
  - by destruct before.
  - cbn in Hnone. destruct before as [|c' before]; cbn in Heq.
    + injection Heq as -> ->. rewrite Ascii.eqb_refl in Hnone.
      destruct (through_last_closing_brace rest) eqn:Hm; [done|].
      by apply through_None.
    + injection Heq as -> ->.
      assert (match_json (before +:+ String "{" rest) = None) as Htail.
      { destruct (Ascii.eqb c' "{"); [|done].
        by destruct (through_last_closing_brace _). }
      by apply (IH Htail before rest).
Qed.
End Extraction.

(** ** The schedule view *)

Section Schedule.

Implicit Types (schedule : gmap Z (list Activity)) (a : Activity) (slot : Z).

Lemma blank_lookup (l : list Z) : ∀ (schedule : gmap Z (list Activity)) (k : Z),
  fold_left (λ schedule i, <[i := []]> schedule) l schedule !! k
  = if bool_decide (k ∈ l) then Some [] else schedule !! k.
Proof.
  induction l as [|i l IH]; intros schedule k; [done|].
  cbn [fold_left]. rewrite IH.
  destruct (decide (k ∈ l)) as [Hin|Hin].
  - rewrite !bool_decide_eq_true_2; [done| |done]. by right.
  - rewrite (bool_decide_eq_false_2 _ Hin).
    destruct (decide (i = k)) as [->|Hne].
    + rewrite lookup_insert_eq, bool_decide_eq_true_2; [done|left].
    + rewrite lookup_insert_ne by done.
      rewrite bool_decide_eq_false_2; [done|].
      rewrite not_elem_of_cons. split; [congruence|done].
Qed.

Lemma empty_schedule_view : view_of [] empty_schedule.
Proof.
  intros slot. unfold empty_schedule. rewrite blank_lookup, lookup_empty.
  rewrite (bool_decide_ext (slot ∈ seqZ 0 48) (0 <= slot < 48)); [done|].
  rewrite elem_of_seqZ. lia.
Qed.

(** One assignment placed on a schedule that has the 48 keys. *)
Lemma place_spec a (n : nat) : ∀ schedule slot,
  (n ≠ 0%nat → 0 <= slot) →
  (∀ k, 0 <= k < 48 → is_Some (schedule !! k)) →
  ∃ schedule',
    place schedule a slot n = Normal schedule'
    ∧ ∀ k, schedule' !! k
           = if bool_decide (slot <= k < slot + Z.of_nat n ∧ k < 48)
             then (λ occupants, occupants ++ [a]) <$> schedule !! k
             else schedule !! k.
Proof.
  induction n as [|n IH]; intros schedule slot Hslot Hkeys.
  - exists schedule. split; [done|]. intros k.
    rewrite bool_decide_eq_false_2; [done|lia].
  - specialize (Hslot ltac:(done)). cbn [place].
    destruct (Z.ltb_spec slot 48) as [Hlt|Hge].
    + destruct (Hkeys slot ltac:(lia)) as [occupants Hocc]. rewrite Hocc.
      destruct (IH (<[slot := occupants ++ [a]]> schedule) (slot + 1))
        as (schedule' & -> & Hview); [lia| |].
      { intros k Hk. destruct (decide (slot = k)) as [->|Hne].
        - rewrite lookup_insert_eq. eauto.
        - rewrite lookup_insert_ne by done. by apply Hkeys. }
      exists schedule'. split; [done|]. intros k. rewrite Hview.
      destruct (decide (slot = k)) as [->|Hne].
      * rewrite lookup_insert_eq, Hocc, bool_decide_eq_false_2 by lia.
        rewrite bool_decide_eq_true_2 by lia. done.
      * rewrite lookup_insert_ne by done.
        apply (f_equal (λ b : bool, if b then _ else _)).
        apply bool_decide_ext. lia.
    + destruct (IH schedule (slot + 1)) as (schedule' & -> & Hview); [lia|done|].
      exists schedule'. split; [done|]. intros k. rewrite Hview.
      rewrite !bool_decide_eq_false_2; [done|lia|lia].
Qed.

Lemma view_has_keys l schedule :
  view_of l schedule → ∀ k, 0 <= k < 48 → is_Some (schedule !! k).
Proof. intros Hview k Hk. rewrite Hview, bool_decide_eq_true_2; eauto. Qed.

Lemma place_view l schedule assignment :
  view_of l schedule → from_slot_0 assignment →
  ∃ schedule',
    place schedule (activity assignment) (startTime assignment)
      (Z.to_nat (duration (activity assignment))) = Normal schedule'
    ∧ view_of (l ++ [assignment]) schedule'.
Proof.
  intros Hview Hfrom.
  destruct (place_spec (activity assignment)
              (Z.to_nat (duration (activity assignment))) schedule
              (startTime assignment)) as (schedule' & Hplace & Hlookup).
  { intros Hn. apply Hfrom. lia. }
  { by eapply view_has_keys. }
  exists schedule'. split; [done|]. intros k.
  rewrite Hlookup, Hview, filter_app, fmap_app, filter_cons, filter_nil.
  destruct (decide (0 <= k < 48)) as [Hk|Hk].
  - rewrite (bool_decide_eq_true_2 _ Hk).
    destruct (decide (covers k assignment)) as [Hc|Hc]; unfold covers in Hc.
    + rewrite bool_decide_eq_true_2 by lia. done.
    + rewrite bool_decide_eq_false_2 by lia.
      rewrite Hview, (bool_decide_eq_true_2 _ Hk). cbn. by rewrite app_nil_r.
  - rewrite (bool_decide_eq_false_2 _ Hk).
    destruct (bool_decide _); by rewrite ?Hview, ?(bool_decide_eq_false_2 _ Hk).
Qed.

Lemma place_all_view l : ∀ l0 schedule,
  view_of l0 schedule → Forall from_slot_0 l →
  ∃ schedule', place_all schedule l = Normal schedule' ∧ view_of (l0 ++ l) schedule'.
Proof.
  induction l as [|assignment l IH]; intros l0 schedule Hview Hall.
  - exists schedule. by rewrite app_nil_r.
  - apply Forall_cons in Hall as [Hfrom Hall]. cbn [place_all].
    destruct (place_view l0 schedule assignment Hview Hfrom)
      as (schedule1 & -> & Hview1).
    destruct (IH _ _ Hview1 Hall) as (schedule' & -> & Hview').
    exists schedule'. split; [done|]. by rewrite <- app_assoc in Hview'.
Qed.

(** C10, as amended. In every state in which no assignment covers a slot
    below 0, [getSchedule()] returns a mapping whose keys are exactly the
    slots 0 to 47, each mapped to the list of the activities whose
    assignment covers that slot; an assignment that runs past slot 47
    contributes its slots below 48 only. *)
Theorem C10_schedule_lists_covering_activities (this : DayPlanner) :
  Forall from_slot_0 (assignments this) →
  ∃ schedule, getSchedule this = Normal schedule
              ∧ view_of (assignments this) schedule.
Proof.
  intros Hall. unfold getSchedule.
  by apply (place_all_view (assignments this) [] empty_schedule empty_schedule_view).
Qed.

End Schedule.

(** ** The batch call *)

Section BatchFacts.

Variable JSON_parse : string → option JSON.

Implicit Types (this : DayPlanner) (text : string) (raws : list JSON).

(** Past extraction, the call is the loop and its conclusion. *)
Lemma call_on_payload this text unassigned raws :
  payload JSON_parse text = Some raws →
  parseAndApplyAssignments JSON_parse this text unassigned
  = conclude this (validate this unassigned raws).
Proof.
  unfold payload, parseAndApplyAssignments.
  destruct (match_json text) as [block|]; [|done].
  destruct (JSON_parse block) as [response|]; [|done].
  destruct (response_assignments response); [|done].
  by intros [= ->].
Qed.

(** C1. Whatever the reply and the planner: when validating the entries of
    the payload records at least one issue, the call throws the error whose
    message is built from the whole list of issues, so that every recorded
    issue occurs in it, and the planner (activities and assignments) is
    exactly as it was; no entry of the batch is applied. *)
Theorem C1_issues_abort_the_batch this text unassigned raws :
  payload JSON_parse text = Some raws →
  issues (validate this unassigned raws) ≠ [] →
  parseAndApplyAssignments JSON_parse this text unassigned
  = (Throw (Error (disallowed (issues (validate this unassigned raws)))), this)
  ∧ ∀ message, message ∈ issues (validate this unassigned raws) →
      carries (disallowed (issues (validate this unassigned raws))) message.
Proof.
  intros Hpayload Hissues. split.
  - rewrite (call_on_payload _ _ _ _ Hpayload). unfold conclude.
    by destruct (issues (validate this unassigned raws)).
  - intros message. apply disallowed_carries.
Qed.

(** C6, as amended. The call takes the part of the reply that runs from its
    first opening brace to its last closing brace and gives that whole part
    to [JSON.parse].  When the reply has no such part, when the part is not
    JSON, or when its value is not an object with an [assignments] array,
    the call throws and leaves the planner as it was; otherwise the array is
    the batch that is validated. *)
Theorem C6_payload_is_first_to_last_brace this text unassigned :
  let call := parseAndApplyAssignments JSON_parse this text unassigned in
  (no_brace_span text ∧ call = (Throw (Error "No JSON found in response"), this))
  ∨ ∃ block,
      brace_span text block
      ∧ ((JSON_parse block = None ∧ call = (Throw SyntaxError, this))
         ∨ (∃ response e,
              JSON_parse block = Some response
              ∧ response_assignments response = Throw e
              ∧ (e = Error "Invalid response format" ∨ response = JNull)
              ∧ call = (Throw e, this))
         ∨ (∃ fields raws,
              JSON_parse block = Some (JObj fields)
              ∧ last_binding "assignments" fields = Some (JArr raws)
              ∧ call = conclude this (validate this unassigned raws))).
Proof.
  cbn. unfold parseAndApplyAssignments.
  destruct (match_json text) as [block|] eqn:Hmatch.
  - right. exists block. split; [by apply match_json_Some|].
    destruct (JSON_parse block) as [response|]; [|by left].
    right. destruct (response_assignments response) as [raws|e] eqn:Hresponse.
    + right. destruct response as [| | | | |fields]; try done.
      exists fields, raws. split; [done|]. split; [|done].
      cbn in Hresponse.
      destruct (last_binding "assignments" fields) as [[]|]; congruence.
    + left. exists response, e. repeat split; try done.
      destruct response as [| | | | |fields]; cbn in Hresponse;
        try (left; congruence); try (by right).
      left. destruct (last_binding "assignments" fields) as [[]|]; congruence.
  - left. split; [by apply match_json_None|done].
Qed.

(** *** The end of the day *)

Lemma assign_fits this a t :
  Forall fits (assignments this) → t + duration a <= 48 →
  Forall fits (assignments (assignActivity this a t)).
Proof.
  intros Hall Hfit. cbn. apply Forall_app. split.
  - apply Forall_forall. intros x Hx. apply list_elem_of_filter in Hx as [_ Hx].
    rewrite Forall_forall in Hall. by apply Hall.
  - by repeat constructor.
Qed.

Lemma unassign_fits this a :
  Forall fits (assignments this) → Forall fits (assignments (unassignActivity this a)).
Proof.
  intros Hall. cbn. apply Forall_forall. intros x Hx.
  apply list_elem_of_filter in Hx as [_ Hx].
  rewrite Forall_forall in Hall. by apply Hall.
Qed.

Lemma apply_validated_fits validated : ∀ this,
  Forall fits (assignments this) → Forall in_day validated →
  Forall fits (assignments (apply_validated this validated)).
Proof.
  induction validated as [|[a t] validated IH]; intros this Hall Hval; [done|].
  apply Forall_cons in Hval as [[_ Hfit] Hval].
  apply (IH (assignActivity this a t)); [|done]. by apply assign_fits.
Qed.

(** The batch call keeps every assignment within the day, whatever the
    reply. *)
Lemma batch_fits this text unassigned :
  Forall fits (assignments this) →
  Forall fits (assignments (snd (parseAndApplyAssignments JSON_parse this text unassigned))).
Proof.
  intros Hall. unfold parseAndApplyAssignments, conclude.
  repeat case_match; try done. cbn.
  apply apply_validated_fits; [done|]. apply validated_in_day.
Qed.

Lemma perform_fits this c :
  ends_within_day c → Forall fits (assignments this) →
  Forall fits (assignments (perform JSON_parse this c)).
Proof.
  intros Hc Hall. destruct c as [title d|a|a t|a|llm]; cbn in *.
  - done.
  - by apply (unassign_fits this a).
  - by apply assign_fits.
  - by apply unassign_fits.
  - unfold assignActivities.
    destruct (filter _ (activities this)) as [|a0 unassigned]; [done|].
    destruct llm as [text|e]; [|done]. by apply batch_fits.
Qed.

Lemma fold_perform_fits calls : ∀ this,
  Forall ends_within_day calls → Forall fits (assignments this) →
  Forall fits (assignments (fold_left (perform JSON_parse) calls this)).
Proof.
  induction calls as [|c calls IH]; intros this Hcalls Hall; [done|].
  apply Forall_cons in Hcalls as [Hc Hcalls]. cbn.
  apply IH; [done|]. by apply perform_fits.
Qed.

(** C4, as amended. In every state reached by a sequence of public calls in
    which each direct [assignActivity(a, t)] is made with
    [t + a.duration <= 48], every assignment ends by slot 48: the batch
    path checks the bound itself, and the other calls create no
    assignment. *)
Theorem C4_assignments_within_day (calls : list call) :
  Forall ends_within_day calls →
  Forall fits (assignments (run JSON_parse calls)).
Proof. intros Hcalls. apply fold_perform_fits; [done|constructor]. Qed.

(** *** Identities *)

Lemma batch_activities this text unassigned :
  activities (snd (parseAndApplyAssignments JSON_parse this text unassigned))
  = activities this
  ∧ next_ref (snd (parseAndApplyAssignments JSON_parse this text unassigned))
    = next_ref this.
Proof.
  unfold parseAndApplyAssignments, conclude. repeat case_match; try done. cbn.
  apply apply_validated_activities.
Qed.

Lemma perform_allocated this c :
  allocated this → allocated (perform JSON_parse this c).
Proof.
  intros Hal. destruct c as [title d|a|a t|a|llm]; cbn.
  - by apply allocated_add.
  - by apply allocated_remove.
  - done.
  - done.
  - unfold assignActivities.
    destruct (filter _ (activities this)) as [|a0 unassigned]; [done|].
    destruct llm as [text|e]; [|done].
    unfold allocated.
    by destruct (batch_activities this text (a0 :: unassigned)) as [-> ->].
Qed.

Lemma run_allocated (calls : list call) : allocated (run JSON_parse calls).
Proof.
  unfold run. generalize allocated_new. generalize new_DayPlanner.
  induction calls as [|c calls IH]; intros this Hal; [done|].
  cbn. apply IH. by apply perform_allocated.
Qed.

(** C3, as amended. [addActivity] never fails: in every state reached by
    public calls, and for every title and duration (the empty title and
    durations outside 0..47 included), it appends to the activities, and
    returns, an activity with that title and duration whose identity differs
    from that of every activity of the store; the assignments are left as
    they were. *)
Theorem C3_addActivity_adds_fresh (calls : list call) (name : string) (d : Z) :
  let this := run JSON_parse calls in
  let created := fst (addActivity this name d) in
  let that := snd (addActivity this name d) in
  title created = name ∧ duration created = d
  ∧ Forall (λ existing, ref existing ≠ ref created) (activities this)
  ∧ activities that = activities this ++ [created]
  ∧ assignments that = assignments this.
Proof.
  cbn. repeat split.
  destruct (run_allocated calls) as [Hlt _].
  eapply Forall_impl; [exact Hlt|]. cbn. lia.
Qed.


(** *** Titles are bound in creation order *)

Lemma filter_ext_in {A} (P Q : A → Prop) `{∀ x, Decision (P x)} `{∀ x, Decision (Q x)}
    (l : list A) :
  (∀ x, x ∈ l → P x ↔ Q x) → filter P l = filter Q l.
Proof.
  induction l as [|x l IH]; intros Hext; [done|].
  rewrite !filter_cons.
  assert (P x ↔ Q x) as Hx by (apply Hext; left).
  rewrite IH by (intros y Hy; apply Hext; by right).
  destruct (decide (P x)), (decide (Q x)); tauto.
Qed.

Lemma zip_bind_none a (q : list Activity) : ∀ r : list JSON,
  ref a ∉ ref <$> q → filter (refers_to a) (zip_with bind q r) = [].
Proof.
  induction q as [|b q IH]; intros [|p r] Hnot; try done.
  rewrite fmap_cons, not_elem_of_cons in Hnot. destruct Hnot as [Hb Hq].
  cbn [zip_with]. rewrite filter_cons_False; [by apply IH|].
  unfold refers_to. cbn. congruence.
Qed.

Lemma zip_bind_one a p (q : list Activity) : ∀ (r : list JSON) (i : nat),
  NoDup (ref <$> q) → q !! i = Some a → r !! i = Some p →
  filter (refers_to a) (zip_with bind q r) = [bind a p].
Proof.
  induction q as [|b q IH]; intros [|p' r] i Hnd Hq Hr; try done.
  rewrite fmap_cons, NoDup_cons in Hnd. destruct Hnd as [Hb Hnd].
  cbn [zip_with]. destruct i as [|i]; cbn in Hq, Hr.
  - injection Hq as ->. injection Hr as ->.
    rewrite filter_cons_True by done. by rewrite zip_bind_none.
  - rewrite filter_cons_False; [by apply (IH r i)|].
    unfold refers_to. cbn. intros Href. apply Hb. rewrite Href.
    apply list_elem_of_fmap_2. by eapply list_elem_of_lookup_2.
Qed.

Lemma validated_from_unassigned unassigned done v assignment :
  tracks unassigned done v →
  assignment ∈ validatedAssignments v →
  activity assignment ∈ unassigned.
Proof.
  intros Htr Hin.
  destruct (Htr (title (activity assignment))) as (_ & Hval & _).
  assert (assignment ∈ zip_with bind (queue (title (activity assignment)) unassigned)
                         (filter (names (title (activity assignment))) done)) as Hz.
  { rewrite <- Hval. by apply list_elem_of_filter. }
  apply elem_of_zip_with in Hz as (b & p & -> & Hb & _). cbn.
  by apply list_elem_of_filter in Hb as [_ ?].
Qed.

(** With every entry validated, the [i]-th entry naming [T] is bound to the
    [i]-th activity of the queue of [T], and that activity is bound once. *)
Lemma bound_by_queue unassigned raws v T i a p :
  NoDup (ref <$> unassigned) →
  tracks unassigned raws v →
  queue T unassigned !! i = Some a →
  filter (names T) raws !! i = Some p →
  filter (refers_to a) (validatedAssignments v) = [bind a p].
Proof.
  intros Hnd Htr Ha Hp.
  assert (a ∈ queue T unassigned) as Hin by by eapply list_elem_of_lookup_2.
  apply list_elem_of_filter in Hin as [HT Hin].
  destruct (Htr T) as (_ & Hval & _).
  rewrite <- (zip_bind_one a p (queue T unassigned) (filter (names T) raws) i);
    [|by apply NoDup_ref_filter|done|done].
  rewrite <- Hval, list_filter_filter.
  apply filter_ext_in. intros x Hx. split; [|tauto].
  intros Hr. split; [done|].
  assert (activity x = a) as ->; [|done].
  eapply same_ref_same; eauto using validated_from_unassigned.
Qed.

(** C5, as amended. Titles are resolved against the queues of the activities
    unassigned when the batch call starts, in the order of their creation:
    when the first two of them titled [T] are [a1] then [a2], and the first
    two entries of the payload naming [T] propose [t1] then [t2], a batch
    call that returns normally (every entry validated) leaves [a1] assigned
    to [t1] and [a2] to [t2], each once, whichever of [t1] and [t2] is the
    earlier.  A batch with a rejected entry binds nothing. *)
Theorem C5_titles_bind_in_creation_order this text raws T a1 a2 others
    p1 p2 rest t1 t2 :
  allocated this →
  queue T (filter (λ a, isAssigned this a = false) (activities this))
  = a1 :: a2 :: others →
  payload JSON_parse text = Some raws →
  filter (names T) raws = p1 :: p2 :: rest →
  proposes t1 p1 → proposes t2 p2 →
  fst (assignActivities JSON_parse this (Normal text)) = Normal () →
  let that := snd (assignActivities JSON_parse this (Normal text)) in
  filter (refers_to a1) (assignments that) = [{| activity := a1; startTime := t1 |}]
  ∧ filter (refers_to a2) (assignments that) = [{| activity := a2; startTime := t2 |}].
Proof.
  intros [_ Hnd] Hqueue Hpayload Hnames Ht1 Ht2. unfold assignActivities.
  set (unassigned := filter _ (activities this)) in *.
  assert (NoDup (ref <$> unassigned)) as Hun by by apply NoDup_ref_filter.
  destruct unassigned as [|a0 unassigned'] eqn:Heq; [done|].
  rewrite <- Heq in *. clear Heq a0 unassigned'.
  rewrite (call_on_payload _ _ _ _ Hpayload). unfold conclude.
  destruct (issues (validate this unassigned raws)) eqn:Hissues; [|done].
  intros _. cbn. 
  assert (tracks unassigned raws (validate this unassigned raws)) as Htr.
  { apply (tracks_run unassigned _ raws _ (no_issue_all_accepted raws _ Hissues) []).
    apply tracks_start. }
  rewrite !apply_validated_own.
  rewrite (bound_by_queue unassigned raws _ T 0 a1 p1),
          (bound_by_queue unassigned raws _ T 1 a2 p2);
    try done; try (by rewrite Hqueue); try (by rewrite Hnames).
  cbn. unfold bind. by rewrite (proposes_start t1), (proposes_start t2).
Qed.

End BatchFacts.

(** ** The claims on examples *)

Section Examples.

Example entry_text :
  JSONText.parse (reply [entry "Study" 10; entry "Study" 20])
  = Some (JObj [("assignments"%string,
                 JArr [proposal "Study" 10; proposal "Study" 20])]).
Proof. vm_compute. reflexivity. Qed.

(** The batch of the specification's overlap and overflow examples: Snack
    (two slots) at 25 meets Lunch at 26, Nap (four slots) at 46 runs past
    the day.  Both issues are in the message and the planner is as before. *)
Lemma C1_issues_abort_the_batch_witness :
  let unassigned := [activity_1 "Snack" 2; activity_2 "Nap" 4] in
  let raws := [proposal "Snack" 25; proposal "Nap" 46] in
  let text := reply [entry "Snack" 25; entry "Nap" 46] in
  length (issues (validate lunch_day unassigned raws)) = 2%nat
  ∧ (parseAndApplyAssignments JSONText.parse lunch_day text unassigned
     = (Throw (Error (disallowed (issues (validate lunch_day unassigned raws)))),
        lunch_day)
     ∧ ∀ message, message ∈ issues (validate lunch_day unassigned raws) →
         carries (disallowed (issues (validate lunch_day unassigned raws))) message).
Proof.
  cbv zeta. split; [vm_compute; reflexivity|].
  apply (C1_issues_abort_the_batch JSONText.parse lunch_day
           (reply [entry "Snack" 25; entry "Nap" 46])
           [activity_1 "Snack" 2; activity_2 "Nap" 4]
           [proposal "Snack" 25; proposal "Nap" 46]).
  - vm_compute. reflexivity.
  - vm_compute. discriminate.
Defined.

(** C2 on an example.  One Study is unassigned.  An entry that proposes
    slot 48, a non-integer, or a slot from which the activity runs past the
    day takes the activity out of its queue and does not put it back, and a
    later entry for the same title is told that no occurrence is available;
    an entry rejected for a conflict puts it back. *)
Example C2_rejected_activity_is_not_returned :
  let study := activity_0 "Study" 4 in
  let this := snd (addActivity new_DayPlanner "Study" 4) in
  let busy := assignActivity this (activity_1 "Lunch" 1) 26 in
  activitiesByTitle (validate this [study] [proposal "Study" 48]) !! "Study"%string
  = Some []
  ∧ activitiesByTitle
      (validate this [study]
         [JObj [("title"%string, JStr "Study"); ("startTime"%string, JNum NonInt)]])
    !! "Study"%string = Some []
  ∧ activitiesByTitle (validate this [study] [proposal "Study" 46]) !! "Study"%string
    = Some []
  ∧ activitiesByTitle (validate busy [study] [proposal "Study" 25]) !! "Study"%string
    = Some [study]
  ∧ issues (validate this [study] [proposal "Study" 48; proposal "Study" 10])
    = ["Activity " +:+ quoted "Study" +:+ " has an out-of-range start time (48).";
       "No available occurrences of activity " +:+ quoted "Study" +:+ " to assign."].
Proof. vm_compute. repeat split; reflexivity. Qed.

(** [addActivity] with the empty title and the duration 100 returns an
    activity and stores it. *)
Lemma C3_counterexample :
  addActivity new_DayPlanner "" 100
  = (activity_0 "" 100,
     {| activities := [activity_0 "" 100]; assignments := []; next_ref := 1 |}).
Proof. reflexivity. Qed.

(** A direct assignment of a five-slot activity to slot 47 is stored as it
    is: the assignment ends at slot 52. *)
Lemma C4_counterexample :
  fst (addActivity new_DayPlanner "Nap" 5) = activity_0 "Nap" 5
  ∧ assignments (run JSONText.parse late_calls)
    = [{| activity := activity_0 "Nap" 5; startTime := 47 |}]
  ∧ ¬ Forall fits (assignments (run JSONText.parse late_calls)).
Proof.
  split; [reflexivity|]. split; [reflexivity|].
  intros Hall. apply Forall_cons in Hall as [Hfit _].
  unfold fits in Hfit. cbn in Hfit. lia.
Qed.

(** The specification's end-to-end example (two Gym activities placed at 10
    and 14 by a batch), followed by a direct assignment that ends exactly at
    slot 48. *)
Lemma C4_assignments_within_day_witness :
  Forall ends_within_day gym_calls
  ∧ assignments (run JSONText.parse gym_calls)
    = [{| activity := activity_1 "Gym" 2; startTime := 14 |};
       {| activity := activity_0 "Gym" 2; startTime := 46 |}]
  ∧ Forall fits (assignments (run JSONText.parse gym_calls)).
Proof.
  assert (Forall ends_within_day gym_calls) as Hcalls.
  { repeat constructor. cbn. lia. }
  split; [exact Hcalls|]. split; [vm_compute; reflexivity|].
  exact (C4_assignments_within_day JSONText.parse gym_calls Hcalls).
Defined.

(** The specification's example: Study (2) then Study (3), and the batch
    Study at 10, Study at 20. *)
Lemma C5_titles_bind_in_creation_order_witness :
  let that :=
    snd (assignActivities JSONText.parse two_studies
           (Normal (reply [entry "Study" 10; entry "Study" 20]))) in
  filter (refers_to (activity_0 "Study" 2)) (assignments that)
  = [{| activity := activity_0 "Study" 2; startTime := 10 |}]
  ∧ filter (refers_to (activity_1 "Study" 3)) (assignments that)
    = [{| activity := activity_1 "Study" 3; startTime := 20 |}].
Proof.
  apply (C5_titles_bind_in_creation_order JSONText.parse two_studies
           (reply [entry "Study" 10; entry "Study" 20])
           [proposal "Study" 10; proposal "Study" 20]
           "Study" (activity_0 "Study" 2) (activity_1 "Study" 3) []
           (proposal "Study" 10) (proposal "Study" 20) [] 10 20).
  - apply run_allocated.
  - vm_compute. reflexivity.
  - vm_compute. reflexivity.
  - vm_compute. reflexivity.
  - reflexivity.
  - reflexivity.
  - vm_compute. reflexivity.
Defined.

(** The same two activities, and a batch whose first entry proposes slot 48:
    the queue and the entries are as the claim describes them, the first
    entry is rejected, the call throws, and neither activity is bound to the
    slot its entry names. *)
Lemma C5_counterexample :
  let text := reply [entry "Study" 48; entry "Study" 20] in
  let outcome := assignActivities JSONText.parse two_studies (Normal text) in
  queue "Study"
    (filter (λ a, isAssigned two_studies a = false) (activities two_studies))
  = [activity_0 "Study" 2; activity_1 "Study" 3]
  ∧ payload JSONText.parse text = Some [proposal "Study" 48; proposal "Study" 20]
  ∧ filter (names "Study") [proposal "Study" 48; proposal "Study" 20]
    = [proposal "Study" 48; proposal "Study" 20]
  ∧ proposes 48 (proposal "Study" 48) ∧ proposes 20 (proposal "Study" 20)
  ∧ fst outcome
    = Throw (Error (disallowed
                      ["Activity " +:+ quoted "Study"
                       +:+ " has an out-of-range start time (48)."]))
  ∧ assignments (snd outcome) = []
  ∧ filter (refers_to (activity_0 "Study" 2)) (assignments (snd outcome))
    ≠ [{| activity := activity_0 "Study" 2; startTime := 48 |}]
  ∧ filter (refers_to (activity_1 "Study" 3)) (assignments (snd outcome))
    ≠ [{| activity := activity_1 "Study" 3; startTime := 20 |}].
Proof. vm_compute. repeat split; (reflexivity || discriminate). Qed.

(** The same two activities with the slots the other way round: the
    first-created Study still gets the first entry's slot. *)
Example later_slot_first :
  assignments
    (snd (assignActivities JSONText.parse two_studies
            (Normal (reply [entry "Study" 20; entry "Study" 10]))))
  = [{| activity := activity_0 "Study" 2; startTime := 20 |};
     {| activity := activity_1 "Study" 3; startTime := 10 |}].
Proof. vm_compute. reflexivity. Qed.

(** A reply that holds a well-formed payload, followed by a remark with
    braces in it.  The payload alone is read and applied; with the remark
    after it the call throws the [SyntaxError] of [JSON.parse], because what
    is parsed runs up to the last closing brace of the reply. *)
Lemma C6_counterexample :
  let block := reply [entry "Gym" 10] in
  let this := snd (addActivity new_DayPlanner "Gym" 2) in
  payload JSONText.parse block = Some [proposal "Gym" 10]
  ∧ assignActivities JSONText.parse this (Normal ("Plan: " +:+ block))
    = (Normal (), assignActivity this (activity_0 "Gym" 2) 10)
  ∧ assignActivities JSONText.parse this
      (Normal ("Plan: " +:+ block +:+ " Slots are numbered {0..47}."))
    = (Throw SyntaxError, this).
Proof. vm_compute. repeat split; reflexivity. Qed.

(** A one-slot activity assigned to slot -1 by a direct call: the view
    cannot be built. *)
Lemma C10_counterexample :
  fst (addActivity new_DayPlanner "Nap" 1) = activity_0 "Nap" 1
  ∧ getSchedule (run JSONText.parse early_calls) = Throw TypeError.
Proof. vm_compute. split; reflexivity. Qed.

(** A five-slot activity at slot 47 is listed under slot 47 and nowhere
    else: its slots 48 to 51 are dropped. *)
Example slots_past_47_are_dropped :
  match getSchedule (run JSONText.parse late_calls) with
  | Normal schedule =>
      schedule !! 46 = Some []
      ∧ schedule !! 47 = Some [activity_0 "Nap" 5]
      ∧ schedule !! 48 = None
  | Throw _ => False
  end.
Proof. vm_compute. repeat split; reflexivity. Qed.

Lemma C10_schedule_lists_covering_activities_witness :
  Forall from_slot_0 (assignments (run JSONText.parse late_calls))
  ∧ ∃ schedule,
      getSchedule (run JSONText.parse late_calls) = Normal schedule
      ∧ view_of (assignments (run JSONText.parse late_calls)) schedule.
Proof.
  assert (Forall from_slot_0 (assignments (run JSONText.parse late_calls))) as Hall.
  { repeat constructor. unfold from_slot_0. cbn. lia. }
  split; [exact Hall|].
  exact (C10_schedule_lists_covering_activities (run JSONText.parse late_calls) Hall).
Defined.

End Examples.

(** ** Invariants of the public calls *)

Section Invariants.

Variable JSON_parse : string → option JSON.

Implicit Types (this : DayPlanner) (a x : Activity) (t : Z).

Lemma length_filter_filter {A} (P Q : A → Prop) `{∀ y, Decision (P y)}
    `{∀ y, Decision (Q y)} (l : list A) :
  (length (filter P (filter Q l)) <= length (filter P l))%nat.
Proof.
  induction l as [|y l IH]; [done|].
  rewrite (filter_cons Q). destruct (decide (Q y)).
  - rewrite !filter_cons. destruct (decide (P y)); cbn; lia.
  - rewrite filter_cons. destruct (decide (P y)); cbn; lia.
Qed.

Lemma assign_one_per_activity this a t :
  one_per_activity (assignments this) →
  one_per_activity (assignments (assignActivity this a t)).
Proof.
  intros Hone x. destruct (decide (ref x = ref a)) as [Heq|Hne].
  - rewrite (list_filter_iff (refers_to x) (refers_to a)), assign_own; [done|].
    intros y. by apply refers_to_same.
  - rewrite assign_other by done. apply Hone.
Qed.

Lemma apply_validated_one_per_activity validated : ∀ this,
  one_per_activity (assignments this) →
  one_per_activity (assignments (apply_validated this validated)).
Proof.
  induction validated as [|[a t] validated IH]; intros this Hone; [done|].
  apply (IH (assignActivity this a t)). by apply assign_one_per_activity.
Qed.

Lemma perform_one_per_activity this c :
  one_per_activity (assignments this) →
  one_per_activity (assignments (perform JSON_parse this c)).
Proof.
  intros Hone. destruct c as [name d|a|a t|a|llm]; cbn.
  - done.
  - intros x. etransitivity; [apply length_filter_filter|apply Hone].
  - by apply assign_one_per_activity.
  - intros x. etransitivity; [apply length_filter_filter|apply Hone].
  - unfold assignActivities.
    destruct (filter _ (activities this)) as [|a0 unassigned]; [done|].
    destruct llm as [text|e]; [|done].
    unfold parseAndApplyAssignments, conclude. repeat case_match; try done.
    by apply apply_validated_one_per_activity.
Qed.

Lemma fold_perform_one_per_activity calls : ∀ this,
  one_per_activity (assignments this) →
  one_per_activity (assignments (fold_left (perform JSON_parse) calls this)).
Proof.
  induction calls as [|c calls IH]; intros this Hone; [done|].
  cbn. apply IH. by apply perform_one_per_activity.
Qed.

(** X1. In every state reached by public calls, each activity has at most one
    assignment. *)
Theorem X1_one_assignment_per_activity (calls : list call) :
  one_per_activity (assignments (run JSON_parse calls)).
Proof. apply fold_perform_one_per_activity. intros x. cbn. lia. Qed.

(** X3. A batch call that throws, for whatever reason (the model's call, the
    extraction, the parse, the format of the payload, or an issue), leaves
    the planner exactly as it was. *)
Theorem X3_failed_batch_changes_nothing this (llm : completion string) e :
  fst (assignActivities JSON_parse this llm) = Throw e →
  snd (assignActivities JSON_parse this llm) = this.
Proof.
  unfold assignActivities.
  destruct (filter _ (activities this)) as [|a0 unassigned]; [done|].
  destruct llm as [text|e']; [|done].
  unfold parseAndApplyAssignments, conclude. by repeat case_match.
Qed.

Lemma all_assigned_nothing_left this :
  Forall (λ a, isAssigned this a = true) (activities this) →
  filter (λ a, isAssigned this a = false) (activities this) = [].
Proof.
  intros Hall. apply filter_none. eapply Forall_impl; [exact Hall|].
  cbn. intros a ->. done.
Qed.

(** X5. With every activity of the planner assigned (and so also with no
    activity at all) the batch call returns normally and changes nothing,
    whatever the model's call does, a failure included. *)
Theorem X5_nothing_to_schedule this (llm : completion string) :
  Forall (λ a, isAssigned this a = true) (activities this) →
  assignActivities JSON_parse this llm = (Normal (), this).
Proof.
  intros Hall. unfold assignActivities. by rewrite all_assigned_nothing_left.
Qed.

End Invariants.

(** ** The occupancy map *)

Section Occupancy.

Implicit Types (occupied : gmap Z Activity) (a b : Activity) (slot k : Z).

Lemma occupy_lookup a (n : nat) : ∀ occupied slot k,
  occupy occupied a slot n !! k
  = if bool_decide (slot <= k < slot + Z.of_nat n) then Some a else occupied !! k.
Proof.
  induction n as [|n IH]; intros occupied slot k.
  - cbn. rewrite bool_decide_eq_false_2; [done|lia].
  - cbn [occupy]. rewrite IH.
    destruct (decide (slot = k)) as [->|Hne].
    + rewrite lookup_insert_eq, (bool_decide_eq_true_2 (k <= k < _)) by lia.
      by destruct (bool_decide _).
    + rewrite lookup_insert_ne by done.
      apply (f_equal (λ c : bool, if c then _ else _)), bool_decide_ext. lia.
Qed.

Lemma first_conflict_None occupied (n : nat) : ∀ slot,
  first_conflict occupied slot n = None ↔
  ∀ k, slot <= k < slot + Z.of_nat n → occupied !! k = None.
Proof.
  induction n as [|n IH]; intros slot.
  - cbn. split; [intros _ k; lia|done].
  - cbn [first_conflict]. destruct (occupied !! slot) as [b|] eqn:Hs.
    + split; [done|]. intros Hall. rewrite Hall in Hs; [done|lia].
    + rewrite IH. split; intros Hall k Hk.
      * destruct (decide (k = slot)) as [->|]; [done|]. apply Hall. lia.
      * apply Hall. lia.
Qed.

Lemma first_conflict_Some occupied (n : nat) : ∀ slot k b,
  first_conflict occupied slot n = Some (k, b) →
  slot <= k < slot + Z.of_nat n ∧ occupied !! k = Some b
  ∧ ∀ j, slot <= j < k → occupied !! j = None.
Proof.
  induction n as [|n IH]; intros slot k b; [done|].
  cbn [first_conflict]. destruct (occupied !! slot) as [b'|] eqn:Hs.
  - intros [= <- <-]. repeat split; [lia|lia|done|]. intros j. lia.
  - intros (Hk & Hb & Hfirst)%IH. repeat split; [lia|lia|done|].
    intros j Hj. destruct (decide (j = slot)) as [->|]; [done|].
    apply Hfirst. lia.
Qed.

Lemma covers_occupied assignment k :
  covers k assignment ↔
  startTime assignment <= k
  < startTime assignment + Z.of_nat (Z.to_nat (duration (activity assignment))).
Proof. unfold covers. lia. Qed.

Lemma marks_nil : marks [] ∅.
Proof.
  intros slot. split.
  - intros b. by rewrite lookup_empty.
  - by intros assignment ?%elem_of_nil.
Qed.

Lemma marks_snoc l occupied assignment :
  marks l occupied →
  marks (l ++ [assignment])
    (occupy occupied (activity assignment) (startTime assignment)
       (Z.to_nat (duration (activity assignment)))).
Proof.
  intros Hmarks slot. rewrite occupy_lookup.
  destruct (Hmarks slot) as [Hsound Hcomplete].
  destruct (decide (covers slot assignment)) as [Hc|Hc].
  - rewrite bool_decide_eq_true_2 by by apply covers_occupied.
    split; [|eauto]. intros b [= <-]. exists assignment.
    split; [|done]. apply elem_of_app. right. left.
  - rewrite bool_decide_eq_false_2 by by rewrite <- covers_occupied.
    split.
    + intros b (other & Hin & ? & ?)%Hsound. exists other.
      split; [|done]. apply elem_of_app. by left.
    + intros other [Hin|Hin%list_elem_of_singleton]%elem_of_app Hcov; [eauto|].
      by subst.
Qed.

Lemma marks_fold l : ∀ l0 occupied,
  marks l0 occupied →
  marks (l0 ++ l)
    (fold_left
       (λ occupied existing,
          occupy occupied (activity existing) (startTime existing)
            (Z.to_nat (duration (activity existing)))) l occupied).
Proof.
  induction l as [|assignment l IH]; intros l0 occupied Hmarks.
  - by rewrite app_nil_r.
  - cbn [fold_left]. rewrite (assoc_L (++) l0 [assignment] l : l0 ++ assignment :: l = _).
    apply IH. by apply marks_snoc.
Qed.

(** The map the loop starts from marks the slots of the existing
    assignments. *)
Lemma marks_existing this : marks (assignments this) (existing_occupancy this).
Proof. apply (marks_fold (assignments this) [] ∅ marks_nil). Qed.

Lemma not_marked_clear l occupied assignment :
  marks l occupied →
  first_conflict occupied (startTime assignment)
    (Z.to_nat (duration (activity assignment))) = None →
  clear_of l assignment.
Proof.
  intros Hmarks Hnone slot Hc. apply Forall_forall. intros other Hin Hcov.
  destruct (Hmarks slot) as [_ Hcomplete].
  destruct (Hcomplete other Hin Hcov) as [b Hb].
  rewrite first_conflict_None in Hnone.
  rewrite Hnone in Hb; [done|]. by apply covers_occupied.
Qed.

Lemma clear_chain_snoc validated : ∀ base assignment,
  clear_chain base (validated ++ [assignment])
  ↔ clear_chain base validated ∧ clear_of (base ++ validated) assignment.
Proof.
  induction validated as [|v validated IH]; intros base assignment; cbn.
  - rewrite app_nil_r. tauto.
  - rewrite IH, <- app_assoc. cbn. tauto.
Qed.

Lemma clear_of_subseteq l l' assignment :
  l' ⊆ l → clear_of l assignment → clear_of l' assignment.
Proof.
  intros Hsub Hclear slot Hc. apply Forall_forall. intros other Hin.
  specialize (Hclear slot Hc). rewrite Forall_forall in Hclear.
  apply Hclear. by apply Hsub.
Qed.

Lemma clear_chain_subseteq validated : ∀ base base',
  base' ⊆ base → clear_chain base validated → clear_chain base' validated.
Proof.
  induction validated as [|v validated IH]; intros base base' Hsub; [done|].
  cbn. intros [Hclear Hchain]. split; [by eapply clear_of_subseteq|].
  apply (IH (base ++ [v])); [|done].
  intros x [?|?]%elem_of_app; apply elem_of_app; [left; by apply Hsub|by right].
Qed.

End Occupancy.

(** ** Overlaps and the batch call *)

Section Overlap.

Variable JSON_parse : string → option JSON.

Implicit Types (this : DayPlanner) (v : validation) (raw : JSON).

Lemma loop_keeps_step this v raw :
  loop_keeps this v → loop_keeps this (validate_one v raw).
Proof.
  intros [Hmarks Hchain].
  destruct (validate_one_cases v raw)
    as [(m & _ & Hval & Hocc)|(T & a & pool & t & _ & _ & _ & _ & _ & Hfree & ->)].
  - unfold loop_keeps. by rewrite Hval, Hocc.
  - split; cbn.
    + rewrite app_assoc.
      apply (marks_snoc _ _ {| activity := a; startTime := t |} Hmarks).
    + apply clear_chain_snoc. split; [done|].
      by apply (not_marked_clear _ (occupiedSlots v) {| activity := a; startTime := t |}).
Qed.

Lemma loop_keeps_validate this unassigned raws :
  loop_keeps this (validate this unassigned raws).
Proof.
  unfold validate.
  set (v0 := {| activitiesByTitle := _ |}).
  assert (loop_keeps this v0) as H0.
  { split; cbn; [|done]. rewrite app_nil_r. apply marks_existing. }
  clearbody v0. revert v0 H0.
  induction raws as [|raw raws IH]; intros v0 H0; [done|].
  cbn. apply IH. by apply loop_keeps_step.
Qed.

(** X6. Whatever the entries, the occupancy map of the loop marks exactly
    the slots covered by the existing assignments and by the entries
    validated so far: a marked slot is covered by an assignment of the
    activity it is marked with, and every covered slot is marked. *)
Theorem X6_occupancy_marks_covered_slots this unassigned raws :
  let v := validate this unassigned raws in
  marks (assignments this ++ validatedAssignments v) (occupiedSlots v).
Proof. apply loop_keeps_validate. Qed.

Lemma assign_one_per_slot this a t :
  one_per_slot (assignments this) →
  clear_of (assignments this) {| activity := a; startTime := t |} →
  one_per_slot (assignments (assignActivity this a t)).
Proof.
  intros Hone Hclear slot. cbn. rewrite filter_app, length_app, filter_cons, filter_nil.
  destruct (decide (covers slot {| activity := a; startTime := t |})) as [Hc|Hc].
  - rewrite filter_none; [cbn; lia|].
    specialize (Hclear slot Hc). apply Forall_forall. intros x Hx.
    apply list_elem_of_filter in Hx as [_ Hx].
    rewrite Forall_forall in Hclear. by apply Hclear.
  - cbn. rewrite Nat.add_0_r.
    etransitivity; [apply length_filter_filter|apply Hone].
Qed.

Lemma apply_validated_one_per_slot validated : ∀ this,
  one_per_slot (assignments this) →
  clear_chain (assignments this) validated →
  one_per_slot (assignments (apply_validated this validated)).
Proof.
  induction validated as [|[a t] validated IH]; intros this Hone Hchain; [done|].
  destruct Hchain as [Hclear Hchain].
  apply (IH (assignActivity this a t)); [by apply assign_one_per_slot|].
  eapply clear_chain_subseteq; [|exact Hchain].
  cbn. intros x [Hx|Hx]%elem_of_app; apply elem_of_app; [left|by right].
  by apply list_elem_of_filter in Hx as [_ ?].
Qed.

Lemma batch_one_per_slot this text unassigned :
  one_per_slot (assignments this) →
  one_per_slot
    (assignments (snd (parseAndApplyAssignments JSON_parse this text unassigned))).
Proof.
  intros Hone. unfold parseAndApplyAssignments, conclude.
  repeat case_match; try done. cbn.
  apply apply_validated_one_per_slot; [done|]. apply loop_keeps_validate.
Qed.

(** X2. The batch call never creates an overlap: when no slot is covered by
    two assignments before [assignActivities], none is after it, whatever the
    model replies. *)
Theorem X2_batch_keeps_slots_apart this (llm : completion string) :
  one_per_slot (assignments this) →
  one_per_slot (assignments (snd (assignActivities JSON_parse this llm))).
Proof.
  intros Hone. unfold assignActivities.
  destruct (filter _ (activities this)) as [|a0 unassigned]; [done|].
  destruct llm as [text|e]; [|done]. by apply batch_one_per_slot.
Qed.

(** Every entry either records one issue or is validated. *)
Lemma entries_accounted_step v raw :
  (length (issues (validate_one v raw)) + length (validatedAssignments (validate_one v raw))
   = S (length (issues v) + length (validatedAssignments v)))%nat.
Proof.
  destruct (validate_one_cases v raw)
    as [(m & -> & -> & _)|(?&?&?&?&_&_&_&_&_&_& ->)]; cbn;
    rewrite length_app; cbn; lia.
Qed.

(** X7. Every entry of the payload is accounted for: the number of issues
    recorded and the number of entries validated add up to the number of
    entries. *)
Theorem X7_every_entry_is_rejected_or_validated this unassigned raws :
  let v := validate this unassigned raws in
  (length (issues v) + length (validatedAssignments v) = length raws)%nat.
Proof.
  cbn. unfold validate.
  set (v0 := {| activitiesByTitle := _ |}).
  change (length raws) with (length (issues v0) + length (validatedAssignments v0) + length raws)%nat.
  clearbody v0. revert v0.
  induction raws as [|raw raws IH]; intros v0; cbn [fold_left length]; [lia|].
  rewrite IH, entries_accounted_step. lia.
Qed.

End Overlap.

(** ** A batch that succeeds *)

Section Success.

Variable JSON_parse : string → option JSON.

Implicit Types (this : DayPlanner) (v : validation) (raw : JSON).

(** In a run of validated entries the validated list grows by one answer
    per entry, taken from the activities offered. *)
Lemma all_accepted_answers unassigned v raws v' :
  all_accepted v raws v' →
  ∀ done, tracks unassigned done v →
  ∃ added,
    validatedAssignments v' = validatedAssignments v ++ added
    ∧ Forall2 answers raws added.
Proof.
  induction 1 as [v|v raw v1 raws v' Hacc _ IH]; intros done Htr.
  - exists []. by rewrite app_nil_r.
  - destruct (IH (done ++ [raw]) (tracks_step _ _ _ _ _ Hacc Htr))
      as (added & Hval & Hall).
    destruct Hacc as (T & a & pool & t & Hname & Hprop & Hpool & _ & _ & _ & ->).
    exists ({| activity := a; startTime := t |} :: added).
    split; [by rewrite Hval; cbn; rewrite <- app_assoc|].
    constructor; [|done]. split; [|done]. cbn.
    destruct (Htr T) as (Hq & _ & _). unfold pool_of in Hq.
    rewrite Hpool in Hq. cbn in Hq.
    assert (a ∈ queue T unassigned) as Hin.
    { apply (list_elem_of_lookup_2 _ (length (filter (names T) done) + 0)).
      by rewrite <- lookup_drop, <- Hq. }
    apply list_elem_of_filter in Hin as [-> _]. done.
Qed.

Lemma validated_once unassigned raws v assignment :
  NoDup (ref <$> unassigned) →
  tracks unassigned raws v →
  assignment ∈ validatedAssignments v →
  filter (refers_to (activity assignment)) (validatedAssignments v) = [assignment].
Proof.
  intros Hnd Htr Hin.
  destruct (Htr (title (activity assignment))) as (_ & Hval & _).
  assert (assignment ∈ zip_with bind (queue (title (activity assignment)) unassigned)
                         (filter (names (title (activity assignment))) raws)) as Hz.
  { rewrite <- Hval. by apply list_elem_of_filter. }
  apply elem_of_lookup_zip_with in Hz as (i & a & p & -> & Ha & Hp).
  cbn. by eapply bound_by_queue.
Qed.

Lemma once_each_NoDup (l : list Assignment) :
  (∀ x, x ∈ l → filter (refers_to (activity x)) l = [x]) →
  NoDup ((λ x, ref (activity x)) <$> l).
Proof.
  induction l as [|y l IH]; intros Honce; [constructor|].
  rewrite fmap_cons. apply NoDup_cons.
  assert (filter (refers_to (activity y)) l = []) as Hy.
  { specialize (Honce y ltac:(left)). rewrite filter_cons_True in Honce by done.
    congruence. }
  split.
  - intros (z & Href & Hz)%list_elem_of_fmap.
    eapply (filter_nil_not_elem_of _ _ z Hy); [|done]. unfold refers_to. congruence.
  - apply IH. intros x Hx. specialize (Honce x ltac:(by right)).
    rewrite filter_cons in Honce. destruct (decide _) as [Hr|Hr]; [|done].
    exfalso. eapply (filter_nil_not_elem_of _ _ x Hy); [|done].
    unfold refers_to in *. congruence.
Qed.

(** Assignments of distinct activities none of which is assigned are
    appended as they are. *)
Lemma apply_validated_appends validated : ∀ this,
  Forall (λ x, unassigned_in this (activity x)) validated →
  NoDup ((λ x, ref (activity x)) <$> validated) →
  assignments (apply_validated this validated) = assignments this ++ validated.
Proof.
  induction validated as [|[a t] validated IH]; intros this Hfree Hnd.
  - by rewrite app_nil_r.
  - apply Forall_cons in Hfree as [Ha Hfree].
    rewrite fmap_cons in Hnd. apply NoDup_cons in Hnd as [Hnot Hnd]. cbn in Ha, Hnot.
    change (apply_validated this ({| activity := a; startTime := t |} :: validated))
      with (apply_validated (assignActivity this a t) validated).
    rewrite IH; [| |done].
    + cbn. rewrite (filter_all _ _ Ha), <- app_assoc. done.
    + apply Forall_forall. intros x Hx. unfold unassigned_in. cbn.
      rewrite Forall_forall in Hfree. specialize (Hfree x Hx).
      apply Forall_app. split.
      * apply Forall_forall. intros y Hy. apply list_elem_of_filter in Hy as [_ Hy].
        unfold unassigned_in in Hfree. rewrite Forall_forall in Hfree. by apply Hfree.
      * constructor; [|constructor]. unfold refers_to. cbn. intros Href.
        apply Hnot. rewrite Href. by apply (list_elem_of_fmap_2 (λ x, ref (activity x))).
Qed.

(** X4. A batch call that returns normally has applied every entry of the
    payload, in order: the existing assignments are kept as they are, in
    place, and one assignment per entry is appended, each of an activity of
    the planner that had no assignment and carries the title the entry
    names, at the slot the entry proposes. *)
Theorem X4_successful_batch_appends_the_payload this text raws :
  let unassigned := filter (λ a, isAssigned this a = false) (activities this) in
  allocated this →
  payload JSON_parse text = Some raws →
  fst (parseAndApplyAssignments JSON_parse this text unassigned) = Normal () →
  ∃ added,
    assignments (snd (parseAndApplyAssignments JSON_parse this text unassigned))
    = assignments this ++ added
    ∧ Forall2 answers raws added
    ∧ Forall (λ x, activity x ∈ activities this ∧ isAssigned this (activity x) = false)
        added.
Proof.
  intros unassigned [_ Hnd] Hpayload.
  assert (NoDup (ref <$> unassigned)) as Hun by by apply NoDup_ref_filter.
  rewrite (call_on_payload _ _ _ _ _ Hpayload). unfold conclude.
  destruct (issues (validate this unassigned raws)) eqn:Hissues; [|done].
  intros _. cbn.
  pose proof (no_issue_all_accepted raws _ Hissues) as Hrun.
  pose proof (tracks_run unassigned _ raws _ Hrun [] (tracks_start this unassigned)) as Htr.
  destruct (all_accepted_answers unassigned _ raws _ Hrun [] (tracks_start this unassigned))
    as (added & Hval & Hans).
  cbn in Hval, Htr. fold (validate this unassigned raws) in Hval, Htr.
  exists added. rewrite Hval in *.
  assert (Forall (λ x, activity x ∈ activities this ∧ isAssigned this (activity x) = false)
            added) as Hadded.
  { apply Forall_forall. intros x Hx.
    pose proof (validated_from_unassigned unassigned raws _ x Htr) as Hin.
    rewrite Hval in Hin. specialize (Hin Hx).
    apply list_elem_of_filter in Hin as [? ?]. done. }
  split; [|done].
  apply apply_validated_appends.
  - eapply Forall_impl; [exact Hadded|]. cbn. intros x [_ Hx]. by apply isAssigned_false.
  - apply once_each_NoDup. intros x Hx. rewrite <- Hval.
    eapply validated_once; [done|done|by rewrite Hval].
Qed.

End Success.

(** ** Activities the planner does not hold *)

Section Remaining.

Variable JSON_parse : string → option JSON.

Implicit Types (this : DayPlanner) (a b : Activity) (t : Z).

Lemma stored_filter this (P : Assignment → Prop) `{∀ x, Decision (P x)} :
  stored this →
  Forall (λ x, activity x ∈ activities this) (filter P (assignments this)).
Proof.
  intros Hst. apply Forall_forall. intros x Hx.
  apply list_elem_of_filter in Hx as [_ Hx].
  unfold stored in Hst. rewrite Forall_forall in Hst. by apply Hst.
Qed.

Lemma batch_stored this text :
  stored this →
  stored (snd (parseAndApplyAssignments JSON_parse this text
                 (filter (λ a, isAssigned this a = false) (activities this)))).
Proof.
  intros Hst. unfold parseAndApplyAssignments, conclude.
  destruct (match_json text) as [block|]; [|done].
  destruct (JSON_parse block) as [response|]; [|done].
  destruct (response_assignments response) as [raws|]; [|done].
  set (unassigned := filter _ _).
  destruct (issues (validate this unassigned raws)) eqn:Hissues; [|done].
  cbn. unfold stored.
  destruct (apply_validated_activities (validatedAssignments (validate this unassigned raws))
              this) as [-> _].
  pose proof (tracks_run unassigned _ raws _ (no_issue_all_accepted raws _ Hissues) []
                (tracks_start this unassigned)) as Htr.
  cbn in Htr. fold (validate this unassigned raws) in Htr.
  assert (Forall (λ x, activity x ∈ activities this)
            (validatedAssignments (validate this unassigned raws))) as Hval.
  { apply Forall_forall. intros x Hx.
    pose proof (validated_from_unassigned unassigned raws _ x Htr Hx) as Hin.
    by apply list_elem_of_filter in Hin as [_ ?]. }
  revert Hval Hst. generalize (validatedAssignments (validate this unassigned raws)).
  unfold stored. generalize (activities this) as stock. clear.
  intros stock validated. revert this.
  induction validated as [|[a t] validated IH]; intros this Hval Hst; [done|].
  apply Forall_cons in Hval as [Ha Hval].
  apply (IH (assignActivity this a t)); [done|]. cbn.
  apply Forall_app. split; [|by repeat constructor].
  apply Forall_forall. intros x Hx. apply list_elem_of_filter in Hx as [_ Hx].
  rewrite Forall_forall in Hst. by apply Hst.
Qed.

(** X8. Every public call keeps the assignments within the activities of the
    planner, provided a direct [assignActivity] is passed an activity the
    planner holds: if every assignment is of a held activity before the call,
    so it is after.  [removeActivity] drops the assignments of what it
    removes, and the batch call assigns held activities only. *)
Theorem X8_assignments_stay_within_the_activities this (c : call) :
  stored this → passes_stored this c → stored (perform JSON_parse this c).
Proof.
  intros Hst Hc. destruct c as [name d|a|a t|a|llm]; cbn in *.
  - unfold stored in *. cbn. eapply Forall_impl; [exact Hst|].
    cbn. intros x Hx. apply elem_of_app. by left.
  - unfold stored. cbn. apply Forall_forall. intros x Hx.
    apply list_elem_of_filter in Hx as [Hne Hx]. apply list_elem_of_filter.
    unfold refers_to in Hne. split; [done|].
    unfold stored in Hst. rewrite Forall_forall in Hst. by apply Hst.
  - unfold stored. cbn. apply Forall_app. split; [|by repeat constructor].
    by apply (stored_filter this).
  - by apply (stored_filter this).
  - unfold assignActivities.
    destruct (filter _ (activities this)) as [|a0 unassigned] eqn:Hun; [done|].
    destruct llm as [text|e]; [|done]. rewrite <- Hun. by apply batch_stored.
Qed.

(** X9. [removeActivity] of an activity the planner neither holds nor has
    assigned changes nothing; it does not fail. *)
Theorem X9_remove_of_unknown_activity_changes_nothing this a :
  Forall (λ b, ref b ≠ ref a) (activities this) →
  unassigned_in this a →
  removeActivity this a = this.
Proof.
  intros Hnot Hfree. unfold removeActivity.
  rewrite (filter_all _ _ Hnot), (filter_all _ _ Hfree). by destruct this.
Qed.

(** X10. [removeActivity] touches nothing but the activity it is given: every
    activity with another identity is held after the call exactly when it
    was held before, and keeps the assignments it had. *)
Theorem X10_remove_keeps_the_others this a b :
  ref b ≠ ref a →
  (b ∈ activities (removeActivity this a) ↔ b ∈ activities this)
  ∧ filter (refers_to b) (assignments (removeActivity this a))
    = filter (refers_to b) (assignments this).
Proof.
  intros Hne. cbn. repeat split.
  - by intros [_ ?]%list_elem_of_filter.
  - intros Hb. by apply list_elem_of_filter.
  - rewrite list_filter_filter. apply list_filter_iff. intros x.
    unfold refers_to. split; [tauto|]. intros Hx. split; [done|]. congruence.
Qed.

End Remaining.

(** ** The schedule, the clock and the extraction *)

Section More.

Implicit Types (this : DayPlanner) (schedule : gmap Z (list Activity)).

Lemma place_all_throws l : ∀ l0 schedule,
  view_of l0 schedule →
  Exists (λ x, ¬ from_slot_0 x) l →
  place_all schedule l = Throw TypeError.
Proof.
  induction l as [|x l IH]; intros l0 schedule Hview Hex; [by apply Exists_nil in Hex|].
  cbn [place_all]. destruct (decide (from_slot_0 x)) as [Hx|Hx].
  - destruct (place_view l0 schedule x Hview Hx) as (schedule1 & -> & Hview1).
    apply (IH _ _ Hview1). by apply Exists_cons in Hex as [?|?].
  - unfold from_slot_0 in Hx.
    assert (0 < duration (activity x) ∧ startTime x < 0) as [Hd Hs] by lia.
    destruct (Z.to_nat (duration (activity x))) as [|n] eqn:Hn; [lia|].
    cbn [place]. destruct (Z.ltb_spec (startTime x) 48) as [_|?]; [|lia].
    rewrite Hview, bool_decide_eq_false_2 by lia. done.
Qed.

(** X11. [getSchedule()] throws a [TypeError] exactly when some assignment
    covers a slot below 0 (one of positive duration whose start time is
    negative); in every other state it returns. *)
Theorem X11_schedule_throws_on_negative_slots this :
  getSchedule this = Throw TypeError ↔ ¬ Forall from_slot_0 (assignments this).
Proof.
  unfold getSchedule. split.
  - intros Hthrow Hall.
    destruct (place_all_view (assignments this) [] empty_schedule empty_schedule_view Hall)
      as (schedule & Hplace & _).
    congruence.
  - intros Hnot.
    destruct (Forall_Exists_dec from_slot_0 (λ x, ¬ from_slot_0 x)
                (λ x, decide (from_slot_0 x)) (assignments this)) as [?|Hex]; [done|].
    by apply (place_all_throws (assignments this) [] empty_schedule empty_schedule_view).
Qed.

Lemma fmap_NoDup_inj {A B} (f : A → B) (l : list A) x y :
  NoDup (f <$> l) → x ∈ l → y ∈ l → f x = f y → x = y.
Proof.
  induction l as [|z l IH]; [by intros _ ?%elem_of_nil|].
  rewrite fmap_cons, NoDup_cons. intros [Hz Hl] Hx Hy Heq.
  apply elem_of_cons in Hx as [->|Hx]; apply elem_of_cons in Hy as [->|Hy]; eauto.
  - exfalso. apply Hz. rewrite Heq. by apply list_elem_of_fmap_2.
  - exfalso. apply Hz. rewrite <- Heq. by apply list_elem_of_fmap_2.
Qed.

Lemma day_texts_differ : NoDup (formatTimeSlot <$> seqZ 0 48).
Proof. apply (bool_decide_unpack _). vm_compute. exact I. Qed.

(** X12. Within the day, [formatTimeSlot] tells the slots apart: two slots
    of 0..47 with the same text are the same slot. *)
Theorem X12_slot_texts_differ (slot slot' : Z) :
  0 <= slot < 48 → 0 <= slot' < 48 →
  formatTimeSlot slot = formatTimeSlot slot' → slot = slot'.
Proof.
  intros Hs Hs'. apply (fmap_NoDup_inj formatTimeSlot (seqZ 0 48));
    [apply day_texts_differ|apply elem_of_seqZ; lia|apply elem_of_seqZ; lia].
Qed.

Lemma day_texts_read_the_clock :
  Forall (λ slot, formatTimeSlot slot = clock_text slot) (seqZ 0 48).
Proof. apply (bool_decide_unpack _). vm_compute. exact I. Qed.

(** X13. Within the day, [formatTimeSlot] is the 12-hour clock: slot [s]
    reads hour [(s / 2) mod 12], with 12 for 0, minutes 00 on even slots and
    30 on odd ones, AM before slot 24 and PM from it on; so midnight is
    12:00 AM and noon is 12:00 PM. *)
Theorem X13_slot_text_is_the_12_hour_clock (slot : Z) :
  0 <= slot < 48 → formatTimeSlot slot = clock_text slot.
Proof.
  intros Hs. pose proof day_texts_read_the_clock as Hall.
  rewrite Forall_forall in Hall. apply Hall, elem_of_seqZ. lia.
Qed.

Lemma through_free s : occurs "}" s = false → through_last_closing_brace s = None.
Proof.
  induction s as [|c s IH]; [done|]. cbn.
  intros [Hc Hs]%orb_false_iff. by rewrite (IH Hs), Hc.
Qed.

Lemma through_complete after : ∀ body,
  occurs "}" after = false →
  through_last_closing_brace ((body +:+ "}") +:+ after) = Some (body +:+ "}").
Proof.
  intros body Hafter. induction body as [|c body IH].
  - change (("" +:+ "}") +:+ after) with (String "}" after).
    cbn [through_last_closing_brace]. by rewrite (through_free _ Hafter).
  - change ((String c body +:+ "}") +:+ after)
      with (String c ((body +:+ "}") +:+ after)).
    cbn [through_last_closing_brace]. by rewrite IH.
Qed.

(** X14. The extraction is exact: what [match] returns is the part of the
    text from its first opening brace to its last closing brace, and every
    text with such a part gets it; so the part extracted from a reply is
    unique, and a payload wrapped in text without braces is extracted as it
    is. *)
Theorem X14_match_is_the_brace_span (text block : string) :
  match_json text = Some block ↔ brace_span text block.
Proof.
  split; [apply match_json_Some|].
  intros (before & body & after & -> & -> & Hbefore & Hafter).
  induction before as [|c before IH].
  - change ("" +:+ String "{" (body +:+ "}") +:+ after)
      with (String "{" ((body +:+ "}") +:+ after)).
    cbn [match_json]. by rewrite Ascii.eqb_refl, through_complete.
  - change (String c before +:+ String "{" (body +:+ "}") +:+ after)
      with (String c (before +:+ String "{" (body +:+ "}") +:+ after)).
    cbn in Hbefore. apply orb_false_iff in Hbefore as [Hc Hbefore].
    cbn [match_json]. rewrite Hc. by apply IH.
Qed.

End More.

(** ** The prompt *)

Section Prompt.

Implicit Types (this : DayPlanner) (a : Activity) (x : Assignment).

Lemma carries_append s after part : carries s part → carries (s +:+ after) part.
Proof.
  intros (before & after' & ->). exists before, (after' +:+ after).
  by rewrite !append_assoc.
Qed.

Lemma carries_trans s middle part :
  carries s middle → carries middle part → carries s part.
Proof.
  intros (before & after & ->) Hpart.
  by apply carries_prepend, carries_append.
Qed.

Lemma carries_joined sep (l : list string) s part :
  s ∈ l → carries s part → carries (join sep l) part.
Proof. intros Hin Hpart. eapply carries_trans; [by apply join_carries|done]. Qed.

Lemma prompt_carries_activities activities existing a :
  a ∈ activities →
  carries (createAssignmentPrompt activities existing) (activity_line a).
Proof.
  intros Hin. unfold createAssignmentPrompt. do 2 apply carries_prepend.
  apply (carries_joined _ _ (activitiesToString activities)).
  - right. left.
  - apply join_carries. by apply list_elem_of_fmap_2.
Qed.

Lemma prompt_carries_assignments activities existing x :
  x ∈ existing →
  carries (createAssignmentPrompt activities existing) (assignment_line x).
Proof.
  intros Hin. unfold createAssignmentPrompt.
  apply carries_prepend, carries_append.
  destruct existing as [|y existing]; [by apply elem_of_nil in Hin|].
  unfold existingAssignmentsSection.
  apply carries_prepend. apply (carries_prepend (String nl "")), carries_append.
  apply join_carries. by apply list_elem_of_fmap_2.
Qed.

(** X15. The prompt [assignActivities] sends inventories the day: it holds
    the line of every activity of the planner that is not assigned, and the
    line (title, time of day, duration) of every existing assignment. *)
Theorem X15_prompt_lists_the_day this prompt :
  prompt_sent this = Some prompt →
  (∀ a, a ∈ activities this → isAssigned this a = false →
        carries prompt (activity_line a))
  ∧ (∀ x, x ∈ assignments this → carries prompt (assignment_line x)).
Proof.
  unfold prompt_sent.
  destruct (filter _ (activities this)) as [|a0 unassigned] eqn:Hun; [done|].
  intros [= <-]. rewrite <- Hun. split.
  - intros a Hin Hfree. apply prompt_carries_activities.
    by apply list_elem_of_filter.
  - intros x Hin. by apply prompt_carries_assignments.
Qed.

(** X16. The prompt asks the model to keep the existing assignments exactly
    when there are some: the requirement, numbered 7, is among the critical
    requirements if and only if the list of existing assignments is not
    empty; the six other requirements are always there. *)
Theorem X16_keep_existing_is_asked_when_needed (existing : list Assignment) :
  (keep_existing ∈ criticalRequirements existing ↔ existing ≠ [])
  ∧ criticalRequirements [] `prefix_of` criticalRequirements existing
  ∧ length (criticalRequirements []) = 6%nat.
Proof.
  split; [|split; [|done]].
  - destruct existing as [|x existing].
    + split; [|done]. intros Hin. exfalso. revert Hin.
      apply (bool_decide_unpack _). vm_compute. exact I.
    + split; [done|]. intros _.
      apply (bool_decide_unpack _). vm_compute. exact I.
  - destruct existing; [done|]. by eexists.
Qed.

End Prompt.

(** ** The display *)

Section Display.

Implicit Types (this : DayPlanner) (schedule : gmap Z (list Activity)) (x : Assignment).

Lemma show_slots_spec this schedule slots : ∀ log has,
  Forall (λ slot, is_Some (schedule !! slot)) slots →
  show_slots this schedule slots log has
  = (log ++ (slots ≫= slot_lines this schedule),
     Normal (has || existsb (slot_taken schedule) slots)).
Proof.
  induction slots as [|slot slots IH]; intros log has Hkeys.
  - cbn. by rewrite app_nil_r, orb_false_r.
  - apply Forall_cons in Hkeys as [[acts Hslot] Hkeys].
    cbn [show_slots]. rewrite bind_cons.
    change (existsb (slot_taken schedule) (slot :: slots))
      with (slot_taken schedule slot || existsb (slot_taken schedule) slots).
    unfold slot_lines at 1, slot_taken at 1. rewrite Hslot.
    destruct acts as [|first others]; [by rewrite IH|].
    cbn zeta. destruct (existsb (starts_at this slot) (first :: others));
      rewrite IH by done.
    + by rewrite <- app_assoc, orb_true_r.
    + by rewrite orb_true_r.
Qed.

Lemma day_keys l schedule :
  view_of l schedule → Forall (λ slot, is_Some (schedule !! slot)) (seqZ 0 48).
Proof.
  intros Hview. apply Forall_forall. intros slot Hslot%elem_of_seqZ.
  eapply view_has_keys; [done|lia].
Qed.

Lemma unique_keeps (l : list Activity) a :
  a ∈ l → (∀ b, b ∈ l → ref b = ref a → b = a) → a ∈ unique l.
Proof.
  induction l as [|c l IH]; intros Hin Hsame; [by apply elem_of_nil in Hin|].
  cbn. apply elem_of_cons in Hin as [->|Hin]; [left|].
  destruct (decide (ref c = ref a)) as [Href|Hne].
  - rewrite (Hsame c) by (done || left). left.
  - right. apply list_elem_of_filter. split; [congruence|].
    apply IH; [done|]. intros b Hb. apply Hsame. by right.
Qed.

Lemma only_assignment (l : list Assignment) x y :
  (length (filter (refers_to (activity x)) l) <= 1)%nat →
  x ∈ l → y ∈ l → ref (activity y) = ref (activity x) → y = x.
Proof.
  intros Hone Hx Hy Href.
  assert (x ∈ filter (refers_to (activity x)) l) as Hx' by by apply list_elem_of_filter.
  assert (y ∈ filter (refers_to (activity x)) l) as Hy' by by apply list_elem_of_filter.
  destruct (filter (refers_to (activity x)) l) as [|z [|z' rest]]; cbn in Hone.
  - by apply elem_of_nil in Hx'.
  - apply list_elem_of_singleton in Hx', Hy'. congruence.
  - lia.
Qed.

(** X17. The display shows every assignment that starts within the day: in
    a planner where each activity has at most one assignment and no
    assignment covers a slot below 0, [displaySchedule()] returns, and for
    every assignment of positive duration that starts at a slot of 0..47 it
    has logged the line of the activity at the time of that slot. *)
Theorem X17_display_shows_each_assignment_at_its_start this x :
  one_per_activity (assignments this) →
  Forall from_slot_0 (assignments this) →
  x ∈ assignments this →
  0 <= startTime x < 48 → 0 < duration (activity x) →
  ∃ log, displaySchedule this = (log, Normal ())
         ∧ schedule_line (startTime x) (activity x) ∈ log.
Proof.
  intros Hone Hall Hx Hstart Hlong. unfold displaySchedule, getSchedule.
  destruct (place_all_view (assignments this) [] empty_schedule empty_schedule_view Hall)
    as (schedule & -> & Hview).
  cbn [app] in Hview.
  rewrite (show_slots_spec _ _ _ _ _ (day_keys _ _ Hview)).
  eexists. split; [reflexivity|].
  assert (schedule_line (startTime x) (activity x)
          ∈ seqZ 0 48 ≫= slot_lines this schedule) as Hline.
  { apply list_elem_of_bind. exists (startTime x).
    split; [|apply elem_of_seqZ; lia].
    unfold slot_lines. rewrite Hview, bool_decide_eq_true_2 by done.
    assert (covers (startTime x) x) as Hcov by (unfold covers; lia).
    assert (x ∈ filter (covers (startTime x)) (assignments this)) as Hin
      by by apply list_elem_of_filter.
    assert (activity x ∈ activity <$> filter (covers (startTime x)) (assignments this))
      as Hact by by apply list_elem_of_fmap_2.
    destruct (activity <$> filter (covers (startTime x)) (assignments this))
      as [|first others] eqn:Hlist; [by apply elem_of_nil in Hact|].
    rewrite <- Hlist in *.
    assert (existsb (starts_at this (startTime x))
              (activity <$> filter (covers (startTime x)) (assignments this)) = true)
      as ->.
    { apply existsb_exists. exists (activity x). split; [by apply list_elem_of_In|].
      unfold starts_at. apply bool_decide_eq_true.
      assert (filter (refers_to (activity x)) (assignments this) = [x]) as ->; [|done].
      assert (x ∈ filter (refers_to (activity x)) (assignments this)) as Hx'
        by by apply list_elem_of_filter.
      specialize (Hone (activity x)).
      destruct (filter (refers_to (activity x)) (assignments this)) as [|z [|z' rest]];
        cbn in Hone; [by apply elem_of_nil in Hx'| |lia].
      by apply list_elem_of_singleton in Hx' as ->. }
    apply list_elem_of_fmap_2, unique_keeps; [done|].
    intros b (y & -> & Hy)%list_elem_of_fmap Href.
    apply list_elem_of_filter in Hy as [_ Hy].
    by rewrite (only_assignment (assignments this) x y (Hone (activity x))). }
  destruct (false || _); rewrite !elem_of_app; eauto.
Qed.

(** X18. When no assignment covers a slot below 0 and none covers a slot of
    the day (an empty planner, or assignments that lie wholly at or after
    slot 48), [displaySchedule()] returns and logs the schedule header, the
    line "No activities scheduled yet." and the section of the unassigned
    activities, and nothing else. *)
Theorem X18_display_of_a_free_day this :
  Forall from_slot_0 (assignments this) →
  day_is_free this →
  displaySchedule this
  = (schedule_header ++ ["No activities scheduled yet."] ++ unassigned_section this,
     Normal ()).
Proof.
  intros Hall Hfree. unfold displaySchedule, getSchedule.
  destruct (place_all_view (assignments this) [] empty_schedule empty_schedule_view Hall)
    as (schedule & -> & Hview).
  cbn [app] in Hview.
  rewrite (show_slots_spec _ _ _ _ _ (day_keys _ _ Hview)).
  assert (∀ slot, slot ∈ seqZ 0 48 → schedule !! slot = Some []) as Hempty.
  { intros slot Hslot%elem_of_seqZ. rewrite Hview, bool_decide_eq_true_2 by lia.
    rewrite filter_none; [done|]. apply Forall_forall. intros x Hx.
    apply Hfree; [done|lia]. }
  assert (seqZ 0 48 ≫= slot_lines this schedule = []) as ->.
  { revert Hempty. generalize (seqZ 0 48). intros slots Hempty.
    induction slots as [|slot slots IH]; [done|]. cbn.
    unfold slot_lines at 1. rewrite Hempty by left. cbn.
    apply IH. intros s Hs. apply Hempty. by right. }
  assert (existsb (slot_taken schedule) (seqZ 0 48) = false) as ->.
  { revert Hempty. generalize (seqZ 0 48). intros slots Hempty.
    induction slots as [|slot slots IH]; [done|]. cbn.
    unfold slot_taken at 1. rewrite Hempty by left. cbn.
    apply IH. intros s Hs. apply Hempty. by right. }
  cbn [orb]. by rewrite app_nil_r, <- app_assoc.
Qed.

End Display.

(** ** How the calls compose *)

Section Laws.

Variable JSON_parse : string → option JSON.

Implicit Types (this : DayPlanner) (a b : Activity) (t : Z) (x : Assignment).

Lemma filter_twice {A} (P : A → Prop) `{∀ y, Decision (P y)} (l : list A) :
  filter P (filter P l) = filter P l.
Proof. apply filter_all, Forall_filter_holds. Qed.

(** X19. The last direct assignment of an activity is the one that counts:
    [assignActivity(a, t)] followed by [assignActivity(a, t')] leaves the
    planner exactly as [assignActivity(a, t')] alone does. *)
Theorem X19_reassigning_replaces this a t t' :
  assignActivity (assignActivity this a t) a t' = assignActivity this a t'.
Proof.
  unfold assignActivity, unassignActivity. cbn. f_equal. f_equal.
  rewrite filter_app, filter_cons_False, filter_nil, app_nil_r by (intros Hn; by apply Hn).
  apply (filter_twice (λ x, ¬ refers_to a x)).
Qed.

(** X20. [unassignActivity(a)] undoes [assignActivity(a, t)] up to the
    assignment [a] had before: after both, the planner is exactly as after
    [unassignActivity(a)] alone; so for an activity that had no assignment,
    assigning and unassigning it restores the planner. *)
Theorem X20_unassign_undoes_assign this a t :
  unassignActivity (assignActivity this a t) a = unassignActivity this a
  ∧ (isAssigned this a = false → unassignActivity (assignActivity this a t) a = this).
Proof.
  assert (unassignActivity (assignActivity this a t) a = unassignActivity this a) as Heq.
  { unfold assignActivity, unassignActivity. cbn. f_equal.
    rewrite filter_app, filter_cons_False, filter_nil, app_nil_r by (intros Hn; by apply Hn).
    apply (filter_twice (λ x, ¬ refers_to a x)). }
  split; [done|]. intros Hfree%isAssigned_false. rewrite Heq.
  unfold unassignActivity. rewrite (filter_all _ _ Hfree). by destruct this.
Qed.

(** X21. Removing an activity right after adding it restores the activities
    and the assignments, in every state reached by public calls in which no
    assignment refers to the identity about to be handed out; only the
    allocation counter has moved. *)
Theorem X21_remove_undoes_add (calls : list call) (name : string) (d : Z) :
  let this := run JSON_parse calls in
  let created := fst (addActivity this name d) in
  let that := removeActivity (snd (addActivity this name d)) created in
  unassigned_in this created →
  activities that = activities this ∧ assignments that = assignments this.
Proof.
  cbn. intros Hfree. destruct (run_allocated JSON_parse calls) as [Hlt _]. split.
  - rewrite filter_app, filter_cons_False, filter_nil, app_nil_r by (intros Hn; by apply Hn).
    apply filter_all. eapply Forall_impl; [exact Hlt|]. cbn. lia.
  - by apply filter_all.
Qed.

Lemma apply_validated_from_slot_0 validated : ∀ this,
  Forall from_slot_0 (assignments this) → Forall in_day validated →
  Forall from_slot_0 (assignments (apply_validated this validated)).
Proof.
  induction validated as [|[a t] validated IH]; intros this Hall Hval; [done|].
  apply Forall_cons in Hval as [[Hstart _] Hval].
  apply (IH (assignActivity this a t)); [|done]. cbn.
  apply Forall_app. split.
  - apply Forall_forall. intros x Hx. apply list_elem_of_filter in Hx as [_ Hx].
    rewrite Forall_forall in Hall. by apply Hall.
  - constructor; [|constructor]. unfold from_slot_0. cbn in *. lia.
Qed.

(** X22. The batch call never breaks the schedule view: if [getSchedule()]
    returns before [assignActivities], it returns after it, whatever the
    model replies; what the batch assigns starts at slot 0 or later. *)
Theorem X22_batch_keeps_the_schedule_readable this (llm : completion string) schedule :
  getSchedule this = Normal schedule →
  ∃ schedule',
    getSchedule (snd (assignActivities JSON_parse this llm)) = Normal schedule'
    ∧ view_of (assignments (snd (assignActivities JSON_parse this llm))) schedule'.
Proof.
  intros Hbefore.
  assert (Forall from_slot_0 (assignments this)) as Hall.
  { destruct (Forall_Exists_dec from_slot_0 (λ x, ¬ from_slot_0 x)
                (λ x, decide (from_slot_0 x)) (assignments this)) as [?|Hex]; [done|].
    unfold getSchedule in Hbefore.
    by rewrite (place_all_throws _ [] empty_schedule empty_schedule_view Hex) in Hbefore. }
  apply (place_all_view _ [] empty_schedule empty_schedule_view).
  unfold assignActivities.
  destruct (filter _ (activities this)) as [|a0 unassigned]; [done|].
  destruct llm as [text|e]; [|done].
  unfold parseAndApplyAssignments, conclude. repeat case_match; try done. cbn.
  apply apply_validated_from_slot_0; [done|]. apply validated_in_day.
Qed.

(** X23. Where no two assignments overlap, the schedule view holds at most
    one activity per slot: in a planner in which every slot is covered by at
    most one assignment and none below 0 is covered, [getSchedule()] returns
    a mapping none of whose lists has two elements. *)
Theorem X23_one_activity_per_slot_of_the_view this :
  one_per_slot (assignments this) →
  Forall from_slot_0 (assignments this) →
  ∃ schedule,
    getSchedule this = Normal schedule
    ∧ ∀ slot occupants, schedule !! slot = Some occupants → (length occupants <= 1)%nat.
Proof.
  intros Hone Hall. unfold getSchedule.
  destruct (place_all_view (assignments this) [] empty_schedule empty_schedule_view Hall)
    as (schedule & -> & Hview).
  exists schedule. split; [done|]. intros slot occupants. rewrite Hview.
  destruct (bool_decide _); [|done]. intros [= <-].
  rewrite length_fmap. apply Hone.
Qed.

End Laws.

(** ** The further properties on examples *)

Section MoreExamples.

Lemma one_assignment_apart (l : list Assignment) :
  (length l <= 1)%nat → one_per_slot l.
Proof. intros Hl slot. etransitivity; [apply length_filter|done]. Qed.

(** Lunch at 26 before; Lunch, Snack at 10 and Nap at 20 after. *)
Lemma X2_batch_keeps_slots_apart_witness :
  one_per_slot (assignments lunch_day)
  ∧ length (assignments
              (snd (assignActivities JSONText.parse lunch_day (Normal snack_and_nap))))
    = 3%nat
  ∧ one_per_slot
      (assignments (snd (assignActivities JSONText.parse lunch_day (Normal snack_and_nap)))).
Proof.
  assert (one_per_slot (assignments lunch_day)) as Hone.
  { apply one_assignment_apart. cbn. lia. }
  split; [exact Hone|]. split; [vm_compute; reflexivity|].
  exact (X2_batch_keeps_slots_apart JSONText.parse lunch_day (Normal snack_and_nap) Hone).
Defined.

(** A reply without a payload. *)
Lemma X3_failed_batch_changes_nothing_witness :
  fst (assignActivities JSONText.parse lunch_day (Normal "Sorry, no plan today."))
  = Throw (Error "No JSON found in response")
  ∧ snd (assignActivities JSONText.parse lunch_day (Normal "Sorry, no plan today."))
    = lunch_day.
Proof.
  assert (fst (assignActivities JSONText.parse lunch_day (Normal "Sorry, no plan today."))
          = Throw (Error "No JSON found in response")) as Hthrow
    by (vm_compute; reflexivity).
  split; [exact Hthrow|].
  exact (X3_failed_batch_changes_nothing JSONText.parse lunch_day
           (Normal "Sorry, no plan today.") _ Hthrow).
Defined.

(** The two Study activities and the batch Study at 10, Study at 20. *)
Lemma X4_successful_batch_appends_the_payload_witness :
  let unassigned :=
    filter (λ a, isAssigned two_studies a = false) (activities two_studies) in
  let text := reply [entry "Study" 10; entry "Study" 20] in
  ∃ added,
    assignments (snd (parseAndApplyAssignments JSONText.parse two_studies text unassigned))
    = assignments two_studies ++ added
    ∧ Forall2 answers [proposal "Study" 10; proposal "Study" 20] added
    ∧ Forall (λ x, activity x ∈ activities two_studies
                   ∧ isAssigned two_studies (activity x) = false) added.
Proof.
  apply (X4_successful_batch_appends_the_payload JSONText.parse two_studies
           (reply [entry "Study" 10; entry "Study" 20])
           [proposal "Study" 10; proposal "Study" 20]).
  - apply run_allocated.
  - vm_compute. reflexivity.
  - vm_compute. reflexivity.
Defined.

(** Both Gym activities are assigned; the model's call fails. *)
Lemma X5_nothing_to_schedule_witness :
  assignActivities JSONText.parse gym_day (Throw TypeError) = (Normal (), gym_day).
Proof.
  apply (X5_nothing_to_schedule JSONText.parse gym_day (Throw TypeError)).
  vm_compute. repeat constructor.
Defined.

(** A direct assignment of Snack, which the planner holds. *)
Lemma X8_assignments_stay_within_the_activities_witness :
  stored (perform JSONText.parse lunch_day (AssignActivity (activity_1 "Snack" 2) 30)).
Proof.
  apply (X8_assignments_stay_within_the_activities JSONText.parse lunch_day
           (AssignActivity (activity_1 "Snack" 2) 30)).
  - vm_compute. repeat constructor.
  - vm_compute. repeat constructor.
Defined.

Lemma X9_remove_of_unknown_activity_changes_nothing_witness :
  removeActivity lunch_day walk = lunch_day.
Proof.
  apply (X9_remove_of_unknown_activity_changes_nothing lunch_day walk).
  - apply (bool_decide_unpack _). vm_compute. exact I.
  - apply (bool_decide_unpack _). vm_compute. exact I.
Defined.

(** Removing Snack leaves Lunch and its assignment. *)
Lemma X10_remove_keeps_the_others_witness :
  (activity_0 "Lunch" 1 ∈ activities (removeActivity lunch_day (activity_1 "Snack" 2))
   ↔ activity_0 "Lunch" 1 ∈ activities lunch_day)
  ∧ filter (refers_to (activity_0 "Lunch" 1))
      (assignments (removeActivity lunch_day (activity_1 "Snack" 2)))
    = filter (refers_to (activity_0 "Lunch" 1)) (assignments lunch_day).
Proof.
  apply (X10_remove_keeps_the_others lunch_day (activity_1 "Snack" 2)
           (activity_0 "Lunch" 1)).
  cbn. lia.
Defined.

Lemma X12_slot_texts_differ_witness : 13 = 13.
Proof.
  apply (X12_slot_texts_differ 13 13); [lia|lia|reflexivity].
Defined.

Lemma X13_slot_text_is_the_12_hour_clock_witness :
  formatTimeSlot 24 = clock_text 24.
Proof. apply (X13_slot_text_is_the_12_hour_clock 24). lia. Defined.

(** The prompt for the day of Lunch, Snack and Nap. *)
Lemma X15_prompt_lists_the_day_witness :
  let prompt :=
    createAssignmentPrompt [activity_1 "Snack" 2; activity_2 "Nap" 4]
      (assignments lunch_day) in
  (∀ a, a ∈ activities lunch_day → isAssigned lunch_day a = false →
        carries prompt (activity_line a))
  ∧ (∀ x, x ∈ assignments lunch_day → carries prompt (assignment_line x)).
Proof.
  apply (X15_prompt_lists_the_day lunch_day).
  vm_compute. reflexivity.
Defined.

(** The second Gym, assigned to slot 14 by the batch, is shown at 7:00 AM. *)
Lemma X17_display_shows_each_assignment_at_its_start_witness :
  ∃ log, displaySchedule gym_day = (log, Normal ())
         ∧ schedule_line 14 (activity_1 "Gym" 2) ∈ log.
Proof.
  apply (X17_display_shows_each_assignment_at_its_start gym_day
           {| activity := activity_1 "Gym" 2; startTime := 14 |}).
  - apply fold_perform_one_per_activity. intros x. cbn. lia.
  - apply (bool_decide_unpack _). vm_compute. exact I.
  - vm_compute. repeat constructor.
  - cbn. lia.
  - cbn. lia.
Defined.

(** Two activities, none assigned. *)
Lemma X18_display_of_a_free_day_witness :
  displaySchedule two_studies
  = (schedule_header ++ ["No activities scheduled yet."] ++ unassigned_section two_studies,
     Normal ()).
Proof.
  apply (X18_display_of_a_free_day two_studies).
  - constructor.
  - intros x slot Hx. vm_compute in Hx. inversion Hx.
Defined.

(** A third Gym added to the two assigned ones, and removed. *)
Lemma X21_remove_undoes_add_witness :
  let created := fst (addActivity (run JSONText.parse gym_calls) "Gym" 2) in
  let that :=
    removeActivity (snd (addActivity (run JSONText.parse gym_calls) "Gym" 2)) created in
  activities that = activities (run JSONText.parse gym_calls)
  ∧ assignments that = assignments (run JSONText.parse gym_calls).
Proof.
  apply (X21_remove_undoes_add JSONText.parse gym_calls "Gym" 2).
  apply (bool_decide_unpack _). vm_compute. exact I.
Defined.

Lemma X22_batch_keeps_the_schedule_readable_witness :
  ∃ schedule',
    getSchedule (snd (assignActivities JSONText.parse lunch_day (Normal snack_and_nap)))
    = Normal schedule'
    ∧ view_of
        (assignments (snd (assignActivities JSONText.parse lunch_day (Normal snack_and_nap))))
        schedule'.
Proof.
  eapply (X22_batch_keeps_the_schedule_readable JSONText.parse lunch_day
            (Normal snack_and_nap)).
  vm_compute. reflexivity.
Defined.

Lemma X23_one_activity_per_slot_of_the_view_witness :
  ∃ schedule,
    getSchedule lunch_day = Normal schedule
    ∧ ∀ slot occupants, schedule !! slot = Some occupants → (length occupants <= 1)%nat.
Proof.
  apply (X23_one_activity_per_slot_of_the_view lunch_day).
  - apply one_assignment_apart. cbn. lia.
  - apply (bool_decide_unpack _). vm_compute. exact I.
Defined.

End MoreExamples.
